(** * The collection page of hydrogen-app: loader and image carousel

    A shallow embedding of [app/routes/collections.$handle.jsx].

    The route module has two parts.  The loader ([loader],
    [loadCriticalData], [loadDeferredData]) runs on the server and either
    returns the page data or throws a [Response].  The carousel is a set of
    module-level variables ([currentSlide], [showLeftArrow],
    [showRightArrow], [scrollInterval]) mutated by event handlers that read
    [window.innerWidth] and the rendered document.

    Numbers.  Every number the carousel handles is a small integer (a pixel
    width, a child count, a slide offset), on which the arithmetic of
    JavaScript doubles is exact, so they are modelled in [Z].  The only
    fractional quantity is the percentage of the CSS transform, which is
    kept symbolic (see [Transform]). *)

From stdpp Require Import base numbers option list strings pretty gmap fin_maps.

Local Open Scope Z_scope.

(** ** The browser side: document and interval timers *)

Module Browser.

(** The text [translateX(-P%)] written by [updateSlider], where [P] is
    the double [(slide / perRow) * (100 / perRow)].  The two operands are
    kept instead of the rounded quotient.  The text is a CSS value only
    for [P] not negative: with a negative [P] it reads [translateX(--P%)],
    which the style declaration refuses, keeping the value it had. *)
Inductive Transform : Type :=
| TranslateXNeg (slide perRow : Z).

(** [style.display] of an arrow button, as the handlers write it. *)
Inductive Display : Type :=
| Flex
| DisplayNone.

(** The element with id [imageSlider]: its children (identified by their
    React keys) and its inline transform, unset until first written. *)
Record SliderElement : Type := mkSlider {
  children : list string;
  style_transform : option Transform;
}.

(** An arrow button: its inline display, unset until first written. *)
Record ButtonElement : Type := mkButton {
  style_display : option Display;
}.

(** What the handlers can reach of the document: [getElementById] of the
    slider and [querySelector] of the two labelled buttons, each of which
    returns [null] when the element is not mounted. *)
Record Document : Type := mkDocument {
  imageSlider : option SliderElement;
  previousImages : option ButtonElement;
  nextImages : option ButtonElement;
}.

(** Interval timers.  A handle is an integer greater than zero, hence
    [positive]: a handle is always truthy.  The table maps each live
    handle to the direction its callback closed over.  *)
Record Timers : Type := mkTimers {
  active : gmap positive string;
  next_handle : positive;
}.

(** [setInterval(() => scrollSlider(direction), 400)]: a fresh handle. *)
Definition setInterval (direction : string) (t : Timers) : positive * Timers :=
  (next_handle t,
   {| active := <[next_handle t := direction]> (active t);
      next_handle := Pos.succ (next_handle t) |}).

(** [clearInterval(h)]: the timer stops firing; unknown handles are
    ignored. *)
Definition clearInterval (h : positive) (t : Timers) : Timers :=
  {| active := delete h (active t); next_handle := next_handle t |}.

End Browser.

Import Browser.

(** ** The component's markup *)

(** Keys of the children of the slider track, as [Collection] renders
    them: first the originals, then the duplicates. *)
Definition child_keys (pre : string) (n : nat) : list string :=
  (λ i, pre +:+ pretty i) <$> seq 0 n.

Definition track (n : nat) : SliderElement :=
  {| children := child_keys "original-" n ++ child_keys "duplicate-" n;
     style_transform := None |}.

(** The part of [Collection]'s output the handlers look up.  The slider and
    both arrows sit under the same guard [images.length > 0]. *)
Definition Collection (images : list string) : Document :=
  if bool_decide (0 < length images)%nat then
    {| imageSlider := Some (track (length images));
       previousImages := Some {| style_display := None |};
       nextImages := Some {| style_display := None |} |}
  else
    {| imageSlider := None; previousImages := None; nextImages := None |}.

(** ** Carousel state *)

(** The module-level variables together with what they are evaluated
    against: the window width, the document and the timer table. *)
Record State : Type := mkState {
  innerWidth : Z;
  document : Document;
  timers : Timers;
  currentSlide : Z;
  showLeftArrow : bool;
  showRightArrow : bool;
  scrollInterval : option positive;
}.

(** Module load: [currentSlide = 0], [showLeftArrow = false],
    [showRightArrow = true], [scrollInterval = null], no timer started. *)
Definition initial (width : Z) (doc : Document) : State :=
  {| innerWidth := width;
     document := doc;
     timers := {| active := ∅; next_handle := 1%positive |};
     currentSlide := 0;
     showLeftArrow := false;
     showRightArrow := true;
     scrollInterval := None |}.

Definition set_currentSlide (v : Z) (st : State) : State :=
  {| innerWidth := innerWidth st; document := document st;
     timers := timers st; currentSlide := v;
     showLeftArrow := showLeftArrow st;
     showRightArrow := showRightArrow st;
     scrollInterval := scrollInterval st |}.

Definition set_arrows (l r : bool) (st : State) : State :=
  {| innerWidth := innerWidth st; document := document st;
     timers := timers st; currentSlide := currentSlide st;
     showLeftArrow := l; showRightArrow := r;
     scrollInterval := scrollInterval st |}.

Definition set_document (doc : Document) (st : State) : State :=
  {| innerWidth := innerWidth st; document := doc;
     timers := timers st; currentSlide := currentSlide st;
     showLeftArrow := showLeftArrow st;
     showRightArrow := showRightArrow st;
     scrollInterval := scrollInterval st |}.

Definition set_timers (t : Timers) (h : option positive) (st : State) : State :=
  {| innerWidth := innerWidth st; document := document st;
     timers := t; currentSlide := currentSlide st;
     showLeftArrow := showLeftArrow st;
     showRightArrow := showRightArrow st;
     scrollInterval := h |}.

Definition set_innerWidth (w : Z) (st : State) : State :=
  {| innerWidth := w; document := document st;
     timers := timers st; currentSlide := currentSlide st;
     showLeftArrow := showLeftArrow st;
     showRightArrow := showRightArrow st;
     scrollInterval := scrollInterval st |}.

(** ** The handlers *)

(** [getImagesPerRow]: the breakpoints on [window.innerWidth]. *)
Definition getImagesPerRow (st : State) : Z :=
  let width := innerWidth st in
  if bool_decide (width >= 1024) then 5
  else if bool_decide (width >= 768) then 3
  else 1.

(** [updateSlider]: does nothing when the slider is not mounted;
    otherwise assigns the transform text to [slider.style.transform].  The
    percentage has the sign of the offset ([imagesPerRow] is positive), so
    at a negative offset the text assigned is [translateX(--P%)]: not a
    CSS value, and the assignment leaves the transform as it was. *)
Definition updateSlider (st : State) : State :=
  match imageSlider (document st) with
  | None => st
  | Some slider =>
      let imagesPerRow := getImagesPerRow st in
      if bool_decide (currentSlide st < 0) then st
      else
        set_document
          {| imageSlider :=
               Some {| children := children slider;
                       style_transform :=
                         Some (TranslateXNeg (currentSlide st) imagesPerRow) |};
             previousImages := previousImages (document st);
             nextImages := nextImages (document st) |}
          st
  end.

(** The arrow count constant of [updateArrowVisibility]. *)
Definition arrowImagesCount : Z := 34.

Definition display_of (shown : bool) : Display :=
  if shown then Flex else DisplayNone.

Definition set_display (shown : bool) (b : option ButtonElement)
  : option ButtonElement :=
  match b with
  | None => None
  | Some _ => Some {| style_display := Some (display_of shown) |}
  end.

(** [updateArrowVisibility]: recomputes both flags against the constant
    count and mirrors them on the buttons that exist. *)
Definition updateArrowVisibility (st : State) : State :=
  let imagesPerRow := getImagesPerRow st in
  let originalImagesCount := arrowImagesCount in
  let l := bool_decide (currentSlide st > 0) in
  let r := bool_decide (currentSlide st < originalImagesCount - imagesPerRow) in
  let st := set_arrows l r st in
  set_document
    {| imageSlider := imageSlider (document st);
       previousImages := set_display l (previousImages (document st));
       nextImages := set_display r (nextImages (document st)) |}
    st.

(** The branch of [scrollSlider] that moves the offset (the [if]/[else] on
    [direction]): the new value of [currentSlide]. *)
Definition advance (direction : string)
    (originalImagesCount imagesPerRow currentSlide : Z) : Z :=
  if String.eqb direction "left" then
    let currentSlide := currentSlide - imagesPerRow in
    if bool_decide (currentSlide < 0)
    then originalImagesCount - imagesPerRow
    else currentSlide
  else
    let currentSlide := currentSlide + imagesPerRow in
    if bool_decide (currentSlide >= originalImagesCount)
    then 0
    else currentSlide.

(** [slider.children.length / 2].  The division is exact on every track
    [Collection] renders, which has each image twice. *)
Definition originalImagesCount_of (slider : SliderElement) : Z :=
  Z.of_nat (length (children slider)) / 2.

(** [scrollSlider]: returns at once without a slider; otherwise moves the
    offset and refreshes transform and arrows. *)
Definition scrollSlider (direction : string) (st : State) : State :=
  match imageSlider (document st) with
  | None => st
  | Some slider =>
      let imagesPerRow := getImagesPerRow st in
      let originalImagesCount := originalImagesCount_of slider in
      let st :=
        set_currentSlide
          (advance direction originalImagesCount imagesPerRow (currentSlide st))
          st in
      updateArrowVisibility (updateSlider st)
  end.

(** [goToSlide]. *)
Definition goToSlide (index : Z) (st : State) : State :=
  let imagesPerRow := getImagesPerRow st in
  let st := set_currentSlide (index * imagesPerRow) st in
  updateArrowVisibility (updateSlider st).

(** [startScrolling]: clears the interval held in [scrollInterval], if any,
    then starts a new one and stores its handle. *)
Definition startScrolling (direction : string) (st : State) : State :=
  let t :=
    match scrollInterval st with
    | Some h => clearInterval h (timers st)
    | None => timers st
    end in
  let '(h, t) := setInterval direction t in
  set_timers t (Some h) st.

(** [stopScrolling]. *)
Definition stopScrolling (st : State) : State :=
  match scrollInterval st with
  | Some h => set_timers (clearInterval h (timers st)) None st
  | None => st
  end.

(** [handleArrowClick]: one step, then continuous scrolling. *)
Definition handleArrowClick (direction : string) (st : State) : State :=
  startScrolling direction (scrollSlider direction st).

(** The [resize] listener. *)
Definition onResize (st : State) : State :=
  let st := set_currentSlide 0 st in
  updateArrowVisibility (updateSlider st).

(** ** Events *)

(** What the page reacts to.  [Resize w] is the window taking width [w]
    and the listener running; [Tick h] is the timer [h] firing, which
    happens only while [h] is live. *)
Inductive Event : Type :=
| Click (direction : string)
| MouseDown (direction : string)
| MouseUp
| MouseLeave
| Resize (width : Z)
| Tick (h : positive).

Definition handle (e : Event) (st : State) : State :=
  match e with
  | Click d => handleArrowClick d st
  | MouseDown d => startScrolling d st
  | MouseUp | MouseLeave => stopScrolling st
  | Resize w => onResize (set_innerWidth w st)
  | Tick h =>
      match active (timers st) !! h with
      | Some d => scrollSlider d st
      | None => st
      end
  end.

Definition run (es : list Event) (st : State) : State :=
  foldl (λ st e, handle e st) st es.

(** ** Sample pages and state predicates *)

(** A page with [n] images, as the component mounts it at width [w]. *)
Definition gallery (n : nat) : list string := replicate n "image.jpg".

Definition mounted (w : Z) (n : nat) : State := initial w (Collection (gallery n)).

(** The offset lies on a track of [N] images. *)
Definition in_range (N : Z) (st : State) : Prop := 0 ≤ currentSlide st < N.

(** The mounted track holds [N] images twice and the offset lies on it. *)
Definition on_track (N : Z) (st : State) : Prop :=
  (∃ slider, imageSlider (document st) = Some slider
             ∧ Z.of_nat (length (children slider)) = 2 * N)
  ∧ in_range N st.

(** The timer table holds exactly what [scrollInterval] names: nothing
    when it is [null], and the one timer of that handle otherwise. *)
Definition timer_inv (st : State) : Prop :=
  match scrollInterval st with
  | None => active (timers st) = ∅
  | Some h =>
      (∃ d, active (timers st) = {[h := d]})
      ∧ (h < next_handle (timers st))%positive
  end.

(** The arrow flags are the ones [updateArrowVisibility] computes from the
    current offset and width. *)
Definition arrows_consistent (st : State) : Prop :=
  showLeftArrow st = bool_decide (currentSlide st > 0)
  ∧ showRightArrow st
    = bool_decide (currentSlide st < arrowImagesCount - getImagesPerRow st).

(** A button that has had its display written shows what the flag says. *)
Definition button_mirrors (shown : bool) (b : option ButtonElement) : Prop :=
  match b with
  | Some {| style_display := Some d |} => d = display_of shown
  | _ => True
  end.

Definition buttons_consistent (st : State) : Prop :=
  button_mirrors (showLeftArrow st) (previousImages (document st))
  ∧ button_mirrors (showRightArrow st) (nextImages (document st)).

(** While the offset is not negative, the transform on the mounted track
    is the one of the current offset and width; it is unset only while the
    offset is still 0. *)
Definition transform_synced (st : State) : Prop :=
  0 ≤ currentSlide st →
  match imageSlider (document st) with
  | None => True
  | Some slider =>
      match style_transform slider with
      | None => currentSlide st = 0
      | Some t => t = TranslateXNeg (currentSlide st) (getImagesPerRow st)
      end
  end.

(** The offset is at the start of a row. *)
Definition aligned (st : State) : Prop :=
  (getImagesPerRow st | currentSlide st).

(** Events that are not a resize. *)
Definition keeps_width (e : Event) : Prop :=
  match e with
  | Resize _ => False
  | _ => True
  end.


(** ** The images on the track *)

(** A child of the slider track: the wrapping [div] with its React key
    and [className], and the [img] inside with its [src], [alt] and
    [className]. *)
Record ImageChild : Type := mkImage {
  key : string;
  className : string;
  src : string;
  alt : string;
  img_className : string;
}.

(** The classes of an original and of its image. *)
Definition original_class : string := "w-auto flex-shrink-0".
Definition original_img_class : string :=
  "w-auto h-35 md:h-35 lg:h-35 object-cover !rounded-lg border border-gray-200 hover:border-gray-600 transition-colors cursor-pointer".

(** The classes of a duplicate and of its image. *)
Definition duplicate_class : string := "w-auto md:w-1/3 lg:w-1/5 flex-shrink-0".
Definition duplicate_img_class : string :=
  "w-auto h-35 md:h-35 lg:h-35 object-cover".

(** One [images.map((image, index) => ...)] of the markup: key
    [`${pre}${index}`], alt [`${title} - Image ${index + 1}`], and the
    classes of that copy. *)
Definition image_children (pre class img_class title : string)
    (images : list string) : list ImageChild :=
  imap (λ index image,
          {| key := pre +:+ pretty index;
             className := class;
             src := image;
             alt := title +:+ " - Image " +:+ pretty (index + 1)%nat;
             img_className := img_class |})
       images.

(** The children of [#imageSlider]: the originals, then the duplicates. *)
Definition slider_children (title : string) (images : list string)
  : list ImageChild :=
  image_children "original-" original_class original_img_class title images
  ++ image_children "duplicate-" duplicate_class duplicate_img_class
       title images.

(** ** The loader *)

Module Loader.

(** A [Response] as the loader builds them: [redirect(url)] is a 302 with
    a [Location] header and no body; the not-found response has a body
    and status 404. *)
Record Response : Type := mkResponse {
  body : option string;
  status : Z;
  location : option string;
}.

(** What a [throw] carries: a [Response], or an [Error] (a rejected
    query). *)
Inductive Thrown : Type :=
| ThrownResponse (r : Response)
| ThrownError (message : string).

(** An [async] function either returns or throws. *)
Inductive Outcome (A : Type) : Type :=
| Return (a : A)
| Throw (t : Thrown).
Global Arguments Return {A} a.
Global Arguments Throw {A} t.

Global Instance outcome_ret : MRet Outcome := λ A a, Return a.

(** Sequencing with [await]: a throw skips the rest. *)
Global Instance outcome_bind : MBind Outcome := λ A B k m,
  match m with
  | Return a => k a
  | Throw t => Throw t
  end.

(** [redirect(url)] of react-router. *)
Definition redirect (url : string) : Response :=
  {| body := None; status := 302; location := Some url |}.

(** The [collection] object selected by [COLLECTION_QUERY]; the product
    page is carried as the node ids with its [pageInfo] cursors. *)
Record CollectionData : Type := mkCollection {
  id : string;
  handle : string;
  title : string;
  description : string;
  products : list string;
  startCursor : option string;
  endCursor : option string;
}.

Record Request : Type := mkRequest { url : string }.

(** The cursor variables [getPaginationVariables] derives from the
    request. *)
Record PaginationVariables : Type := mkPagination {
  first : option Z;
  last : option Z;
  before : option string;
  after : option string;
}.

(** [{ handle, ...paginationVariables }]. *)
Record QueryVariables : Type := mkVariables {
  var_handle : string;
  var_pagination : PaginationVariables;
}.

(** [context.storefront]: [query] resolves to an object whose
    [collection] field is the record or [null], or rejects. *)
Record Storefront : Type := mkStorefront {
  query : QueryVariables → Outcome (option CollectionData);
}.

(** [Route.LoaderArgs]: [params.handle] is a string or [undefined]. *)
Record LoaderArgs : Type := mkArgs {
  storefront : Storefront;
  params_handle : option string;
  request : Request;
}.

(** The object the loader returns. *)
Record LoaderData : Type := mkData { collection : CollectionData }.

(** [!handle]: true for [undefined] and for the empty string. *)
Definition falsy (h : option string) : bool :=
  match h with
  | None => true
  | Some s => bool_decide (s = "")
  end.

(** [`${handle}`] once [handle] is known to be truthy. *)
Definition handle_text (h : option string) : string := default "" h.

Section Imports.

(** [getPaginationVariables] of the Hydrogen library, total on the
    requests the framework passes to a loader. *)
Variable getPaginationVariables : Request → Z → PaginationVariables.

(** [redirectIfHandleIsLocalized] of [~/lib/redirect]: returns
    normally or throws. *)
Variable redirectIfHandleIsLocalized :
  Request → string → CollectionData → Outcome unit.

(** [loadCriticalData]. *)
Definition loadCriticalData (args : LoaderArgs) : Outcome LoaderData :=
  let handle := params_handle args in
  let paginationVariables := getPaginationVariables (request args) 8 in
  if falsy handle then
    Throw (ThrownResponse (redirect "/collections"))
  else
    result ← query (storefront args)
               {| var_handle := handle_text handle;
                  var_pagination := paginationVariables |};
    match result with
    | None =>
        Throw (ThrownResponse
                 {| body := Some ("Collection " +:+ handle_text handle
                                  +:+ " not found");
                    status := 404;
                    location := None |})
    | Some collection =>
        redirectIfHandleIsLocalized (request args)
          (handle_text handle) collection;;
        Return {| collection := collection |}
    end.

(** [loadDeferredData] returns the empty object. *)
Definition loadDeferredData (args : LoaderArgs) : unit := tt.

(** [loader]: the deferred part is empty, so the spread of both parts
    is the critical data. *)
Definition loader (args : LoaderArgs) : Outcome LoaderData :=
  let deferredData := loadDeferredData args in
  criticalData ← loadCriticalData args;
  Return criticalData.

End Imports.

(** An instance of the imported helper, following the comment at its call
    site ("the API handle might be localized, so redirect to the
    localized handle"): it throws a redirect when the handle asked for is
    not the handle the API answered with. *)
Definition redirect_when_localized
    (req : Request) (h : string) (data : CollectionData) : Outcome unit :=
  if bool_decide (h = handle data) then Return tt
  else Throw (ThrownResponse (redirect ("/collections/" +:+ handle data))).

(** An instance of the library function: the first page of eight. *)
Definition first_page (req : Request) (pageBy : Z) : PaginationVariables :=
  {| first := Some pageBy; last := None; before := None; after := None |}.

(** A sample collection. *)
Definition shirts : CollectionData :=
  {| id := "gid://shopify/Collection/1"; handle := "shirts";
     title := "Shirts"; description := "All shirts";
     products := []; startCursor := None; endCursor := None |}.

(** A storefront that knows the one collection, under both its handle
    and a localized one. *)
Definition shop : Storefront :=
  {| query := λ v,
       if bool_decide (var_handle v = "shirts")
       then Return (Some shirts)
       else if bool_decide (var_handle v = "chemises")
       then Return (Some shirts)
       else Return None |}.

Definition args_for (h : option string) : LoaderArgs :=
  {| storefront := shop; params_handle := h;
     request := {| url := "https://shop.example/collections/"
                          +:+ default "" h |} |}.

End Loader.

(** * Properties *)

(** ** Markup: the track holds every image twice *)

Lemma child_keys_length (pre : string) (n : nat) : length (child_keys pre n) = n.
Proof. unfold child_keys. by rewrite length_fmap, length_seq. Qed.

Lemma Collection_slider (images : list string) :
  images ≠ [] →
  ∃ slider, imageSlider (Collection images) = Some slider
            ∧ Z.of_nat (length (children slider)) = 2 * Z.of_nat (length images).
Proof.
  intros Hne. unfold Collection.
  rewrite bool_decide_eq_true_2 by (destruct images; [done | simpl; lia]).
  eexists; split; [done |]. simpl.
  rewrite length_app, !child_keys_length. lia.
Qed.

Lemma Collection_empty : imageSlider (Collection []) = None.
Proof. reflexivity. Qed.

Lemma originalImagesCount_exact (slider : SliderElement) (N : Z) :
  Z.of_nat (length (children slider)) = 2 * N →
  originalImagesCount_of slider = N.
Proof.
  intros H. unfold originalImagesCount_of. rewrite H.
  rewrite Z.mul_comm. by apply Z.div_mul.
Qed.

(** ** Frame lemmas: what each handler leaves alone *)

Lemma updateSlider_frame (st : State) :
  innerWidth (updateSlider st) = innerWidth st
  ∧ currentSlide (updateSlider st) = currentSlide st
  ∧ timers (updateSlider st) = timers st
  ∧ scrollInterval (updateSlider st) = scrollInterval st
  ∧ (children <$> imageSlider (document (updateSlider st)))
    = (children <$> imageSlider (document st)).
Proof.
  unfold updateSlider.
  destruct (imageSlider (document st)) as [s|] eqn:E; [| by rewrite E].
  case_bool_decide; simpl; rewrite ?E; done.
Qed.

(** At a negative offset [updateSlider] changes nothing. *)
Lemma updateSlider_negative (st : State) :
  currentSlide st < 0 → updateSlider st = st.
Proof.
  intros Hneg. unfold updateSlider.
  destruct (imageSlider (document st)); [| done].
  by rewrite bool_decide_eq_true_2.
Qed.

Lemma updateArrowVisibility_frame (st : State) :
  innerWidth (updateArrowVisibility st) = innerWidth st
  ∧ currentSlide (updateArrowVisibility st) = currentSlide st
  ∧ timers (updateArrowVisibility st) = timers st
  ∧ scrollInterval (updateArrowVisibility st) = scrollInterval st
  ∧ imageSlider (document (updateArrowVisibility st))
    = imageSlider (document st).
Proof. done. Qed.

Lemma getImagesPerRow_width (st st' : State) :
  innerWidth st' = innerWidth st → getImagesPerRow st' = getImagesPerRow st.
Proof. unfold getImagesPerRow. by intros ->. Qed.

Lemma getImagesPerRow_cases (st : State) :
  getImagesPerRow st = 1 ∨ getImagesPerRow st = 3 ∨ getImagesPerRow st = 5.
Proof. unfold getImagesPerRow. repeat case_bool_decide; auto. Qed.

Lemma scrollSlider_unmounted (d : string) (st : State) :
  imageSlider (document st) = None → scrollSlider d st = st.
Proof. unfold scrollSlider. by intros ->. Qed.

Lemma scrollSlider_currentSlide (d : string) (st : State) (slider : SliderElement) :
  imageSlider (document st) = Some slider →
  currentSlide (scrollSlider d st)
  = advance d (originalImagesCount_of slider) (getImagesPerRow st) (currentSlide st).
Proof.
  unfold scrollSlider. intros ->.
  destruct (updateArrowVisibility_frame
              (updateSlider (set_currentSlide
                 (advance d (originalImagesCount_of slider) (getImagesPerRow st)
                    (currentSlide st)) st))) as (_ & -> & _).
  by destruct (updateSlider_frame (set_currentSlide
                 (advance d (originalImagesCount_of slider) (getImagesPerRow st)
                    (currentSlide st)) st)) as (_ & -> & _).
Qed.

Lemma scrollSlider_frame (d : string) (st : State) :
  innerWidth (scrollSlider d st) = innerWidth st
  ∧ timers (scrollSlider d st) = timers st
  ∧ scrollInterval (scrollSlider d st) = scrollInterval st
  ∧ (children <$> imageSlider (document (scrollSlider d st)))
    = (children <$> imageSlider (document st)).
Proof.
  unfold scrollSlider.
  destruct (imageSlider (document st)) as [s|] eqn:E; [| by rewrite E].
  set (st1 := set_currentSlide _ st).
  destruct (updateArrowVisibility_frame (updateSlider st1)) as (-> & _ & -> & -> & ->).
  destruct (updateSlider_frame st1) as (-> & _ & -> & -> & ->).
  by rewrite <- E.
Qed.

Lemma scrollSlider_same_track (d : string) (st : State) (slider : SliderElement) :
  imageSlider (document st) = Some slider →
  ∃ slider', imageSlider (document (scrollSlider d st)) = Some slider'
             ∧ children slider' = children slider.
Proof.
  intros Hs. destruct (scrollSlider_frame d st) as (_ & _ & _ & Hc).
  rewrite Hs in Hc. simpl in Hc.
  destruct (imageSlider (document (scrollSlider d st))) as [s'|]; [| done].
  exists s'. split; [done |]. by injection Hc.
Qed.

(** ** The offset arithmetic *)

Lemma advance_left (N k o : Z) :
  advance "left" N k o = if bool_decide (o - k < 0) then N - k else o - k.
Proof. reflexivity. Qed.

Lemma advance_other (d : string) (N k o : Z) :
  d ≠ "left" →
  advance d N k o = if bool_decide (o + k >= N) then 0 else o + k.
Proof.
  intros Hd. unfold advance.
  destruct (String.eqb_spec d "left") as [->|_]; done.
Qed.

Lemma advance_right (N k o : Z) :
  advance "right" N k o = if bool_decide (o + k >= N) then 0 else o + k.
Proof. reflexivity. Qed.

(** C4. [getImagesPerRow] is 5 from width 1024 on, 3 from 768 to 1023 and
    1 below; so it always is 1, 3 or 5, and it never decreases when the
    width grows. *)
Theorem getImagesPerRow_breakpoints (st st' : State) :
  (innerWidth st >= 1024 → getImagesPerRow st = 5)
  ∧ (1024 > innerWidth st ∧ innerWidth st >= 768 → getImagesPerRow st = 3)
  ∧ (innerWidth st < 768 → getImagesPerRow st = 1)
  ∧ (getImagesPerRow st = 1 ∨ getImagesPerRow st = 3 ∨ getImagesPerRow st = 5)
  ∧ (innerWidth st ≤ innerWidth st' → getImagesPerRow st ≤ getImagesPerRow st').
Proof.
  unfold getImagesPerRow.
  repeat split; try intros; repeat case_bool_decide; auto; lia.
Qed.

Lemma getImagesPerRow_breakpoints_witness :
  getImagesPerRow (mounted 1280 34) = 5
  ∧ getImagesPerRow (mounted 800 34) = 3
  ∧ getImagesPerRow (mounted 375 34) = 1
  ∧ getImagesPerRow (mounted 800 34) ≤ getImagesPerRow (mounted 1280 34).
Proof.
  split; [| split; [| split]].
  - apply (getImagesPerRow_breakpoints (mounted 1280 34) (mounted 1280 34)).
    simpl. lia.
  - apply (getImagesPerRow_breakpoints (mounted 800 34) (mounted 800 34)).
    simpl. lia.
  - apply (getImagesPerRow_breakpoints (mounted 375 34) (mounted 375 34)).
    simpl. lia.
  - apply (getImagesPerRow_breakpoints (mounted 800 34) (mounted 1280 34)).
    simpl. lia.
Defined.

(** C1. On a mounted track of [2 * N] children, at [k] images per row and
    offset [o], [scrollSlider] with ['left'] sets the offset to [o - k],
    or to [N - k] when [o - k] is negative; with ['right'] it sets it to
    [o + k], or to [0] when [o + k >= N]. *)
Theorem scrollSlider_offset (st : State) (slider : SliderElement) (N : Z) :
  imageSlider (document st) = Some slider →
  Z.of_nat (length (children slider)) = 2 * N →
  let k := getImagesPerRow st in
  let o := currentSlide st in
  (k = 1 ∨ k = 3 ∨ k = 5)
  ∧ currentSlide (scrollSlider "left" st)
    = (if bool_decide (o - k < 0) then N - k else o - k)
  ∧ currentSlide (scrollSlider "right" st)
    = (if bool_decide (o + k >= N) then 0 else o + k).
Proof.
  intros Hs Hlen k o. split; [apply getImagesPerRow_cases |].
  rewrite !(scrollSlider_currentSlide _ _ _ Hs).
  rewrite (originalImagesCount_exact _ _ Hlen).
  by rewrite advance_left, advance_right.
Qed.

Lemma mounted_slider (w : Z) (n : nat) :
  n ≠ 0%nat →
  ∃ slider, imageSlider (document (mounted w n)) = Some slider
            ∧ Z.of_nat (length (children slider)) = 2 * Z.of_nat n.
Proof.
  intros Hn. destruct (Collection_slider (gallery n)) as (s & Hs & Hl).
  - destruct n; done.
  - exists s. split; [done |]. rewrite Hl. unfold gallery.
    by rewrite length_replicate.
Qed.

Lemma scrollSlider_offset_witness :
  let st := mounted 1024 34 in
  imageSlider (document st) = Some (track 34)
  ∧ Z.of_nat (length (children (track 34))) = 2 * 34
  ∧ let k := getImagesPerRow st in
    let o := currentSlide st in
    (k = 1 ∨ k = 3 ∨ k = 5)
    ∧ currentSlide (scrollSlider "left" st)
      = (if bool_decide (o - k < 0) then 34 - k else o - k)
    ∧ currentSlide (scrollSlider "right" st)
      = (if bool_decide (o + k >= 34) then 0 else o + k).
Proof.
  split; [reflexivity | split; [reflexivity |]].
  apply (scrollSlider_offset (mounted 1024 34) (track 34) 34); reflexivity.
Defined.

(** C3, as stated, fails: with 34 images at 5 per row, ['left'] from
    offset 0 does not give 30. *)
Lemma scenario_left_from_0_is_not_30 :
  getImagesPerRow (mounted 1024 34) = 5
  ∧ currentSlide (mounted 1024 34) = 0
  ∧ currentSlide (scrollSlider "left" (mounted 1024 34)) ≠ 30.
Proof. split; [reflexivity | split; [reflexivity |]]. vm_compute. discriminate. Qed.

(** C3, amended. With 34 images at 5 per row, ['left'] from offset 0 gives
    29 (that is 34 - 5), and ['right'] from offset 30 gives 0, since
    30 + 5 = 35 >= 34. *)
Theorem scenario_34_images_5_per_row :
  getImagesPerRow (mounted 1024 34) = 5
  ∧ originalImagesCount_of (track 34) = 34
  ∧ currentSlide (scrollSlider "left" (mounted 1024 34)) = 29
  ∧ currentSlide (scrollSlider "right" (set_currentSlide 30 (mounted 1024 34))) = 0
  ∧ advance "left" 34 5 0 = 29
  ∧ advance "right" 34 5 30 = 0.
Proof. repeat split; vm_compute; reflexivity. Qed.

(** Offset 30 is where six steps to the right from the start arrive, and
    the seventh wraps. *)
Lemma scenario_six_steps_right :
  currentSlide (run (replicate 6 (Click "right")) (mounted 1024 34)) = 30
  ∧ currentSlide (run (replicate 7 (Click "right")) (mounted 1024 34)) = 0.
Proof. split; vm_compute; reflexivity. Qed.

(** The right wrap tests [>=]: from 28 the step lands on 33, the last
    image; from 29 it would land on 34 and wraps. *)
Lemma scenario_right_boundary :
  advance "right" 34 5 28 = 33
  ∧ advance "right" 34 5 29 = 0
  ∧ advance "right" 34 5 33 = 0.
Proof. repeat split. Qed.

(** ** The offset stays on the track *)

Lemma advance_in_range (d : string) (N k o : Z) :
  0 < k → k ≤ N → 0 ≤ o < N → 0 ≤ advance d N k o < N.
Proof.
  intros Hk HN Ho. unfold advance.
  destruct (String.eqb d "left"); simpl; case_bool_decide; lia.
Qed.

Lemma goToSlide_currentSlide (index : Z) (st : State) :
  currentSlide (goToSlide index st) = index * getImagesPerRow st.
Proof.
  unfold goToSlide. set (st1 := set_currentSlide _ st).
  destruct (updateArrowVisibility_frame (updateSlider st1)) as (_ & -> & _).
  by destruct (updateSlider_frame st1) as (_ & -> & _).
Qed.

Lemma onResize_currentSlide (st : State) : currentSlide (onResize st) = 0.
Proof.
  unfold onResize. set (st1 := set_currentSlide _ st).
  destruct (updateArrowVisibility_frame (updateSlider st1)) as (_ & -> & _).
  by destruct (updateSlider_frame st1) as (_ & -> & _).
Qed.

(** C2, as stated, fails twice: on a track of 2 images at 5 per row,
    ['left'] from offset 0 leaves the range [[0, 2)]; and on a track of 34
    images [goToSlide 7] leaves the range [[0, 34)]. *)
Lemma offset_leaves_range :
  (getImagesPerRow (mounted 1024 2) = 5
   ∧ originalImagesCount_of (track 2) = 2
   ∧ in_range 2 (mounted 1024 2)
   ∧ currentSlide (scrollSlider "left" (mounted 1024 2)) = -3
   ∧ ¬ in_range 2 (scrollSlider "left" (mounted 1024 2)))
  ∧ (in_range 34 (mounted 1024 34)
     ∧ currentSlide (goToSlide 7 (mounted 1024 34)) = 35
     ∧ ¬ in_range 34 (goToSlide 7 (mounted 1024 34))).
Proof.
  unfold in_range.
  repeat split; try (vm_compute; congruence); vm_compute; intros [H1 H2]; congruence.
Qed.

(** C2, amended. On a mounted track of [N] images with [k <= N] images per
    row, [scrollSlider] in any direction takes an offset in [[0, N)] to an
    offset in [[0, N)], and so does the resize listener (at any new width);
    [goToSlide index] sets the offset to [index * k], which is in
    [[0, N)] exactly when [0 <= index * k < N]. *)
Theorem offset_in_range_preserved (st : State) (slider : SliderElement) (N : Z) :
  imageSlider (document st) = Some slider →
  Z.of_nat (length (children slider)) = 2 * N →
  getImagesPerRow st ≤ N →
  in_range N st →
  (∀ d, in_range N (scrollSlider d st))
  ∧ (∀ w, in_range N (onResize (set_innerWidth w st)))
  ∧ (∀ index, in_range N (goToSlide index st)
              ↔ 0 ≤ index * getImagesPerRow st < N).
Proof.
  intros Hs Hlen Hk Ho. unfold in_range in *.
  assert (0 < getImagesPerRow st)
    by (destruct (getImagesPerRow_cases st) as [-> | [-> | ->]]; lia).
  split; [| split].
  - intros d. rewrite (scrollSlider_currentSlide _ _ _ Hs).
    rewrite (originalImagesCount_exact _ _ Hlen).
    by apply advance_in_range.
  - intros w. rewrite onResize_currentSlide. lia.
  - intros index. by rewrite goToSlide_currentSlide.
Qed.

Lemma offset_in_range_preserved_witness :
  let st := set_currentSlide 30 (mounted 1024 34) in
  imageSlider (document st) = Some (track 34)
  ∧ Z.of_nat (length (children (track 34))) = 2 * 34
  ∧ getImagesPerRow st ≤ 34
  ∧ in_range 34 st
  ∧ (∀ d, in_range 34 (scrollSlider d st))
  ∧ (∀ w, in_range 34 (onResize (set_innerWidth w st)))
  ∧ (∀ index, in_range 34 (goToSlide index st)
              ↔ 0 ≤ index * getImagesPerRow st < 34).
Proof.
  split; [reflexivity | split; [reflexivity |]].
  split; [vm_compute; discriminate |].
  split; [split; vm_compute; [discriminate | reflexivity] |].
  apply (offset_in_range_preserved
           (set_currentSlide 30 (mounted 1024 34)) (track 34) 34).
  - reflexivity.
  - reflexivity.
  - vm_compute; discriminate.
  - split; vm_compute; [discriminate | reflexivity].
Defined.

(** *** The invariant along runs

    From five images on, [k <= N] holds at every width, and the offset
    stays on the track whatever the user does. *)

Lemma set_timers_on_track (N : Z) (t : Timers) (h : option positive) (st : State) :
  on_track N st → on_track N (set_timers t h st).
Proof. done. Qed.

Lemma startScrolling_on_track (N : Z) (d : string) (st : State) :
  on_track N st → on_track N (startScrolling d st).
Proof. unfold startScrolling. apply set_timers_on_track. Qed.

Lemma stopScrolling_on_track (N : Z) (st : State) :
  on_track N st → on_track N (stopScrolling st).
Proof.
  unfold stopScrolling. destruct (scrollInterval st); [| done].
  apply set_timers_on_track.
Qed.

Lemma scrollSlider_on_track (N : Z) (d : string) (st : State) :
  5 ≤ N → on_track N st → on_track N (scrollSlider d st).
Proof.
  intros HN [(s & Hs & Hlen) Hr].
  destruct (scrollSlider_same_track d st s Hs) as (s' & Hs' & Hc).
  split; [exists s'; by rewrite Hc |].
  unfold in_range in *. rewrite (scrollSlider_currentSlide _ _ _ Hs).
  rewrite (originalImagesCount_exact _ _ Hlen).
  apply advance_in_range; [| | done];
    destruct (getImagesPerRow_cases st) as [-> | [-> | ->]]; lia.
Qed.

Lemma onResize_on_track (N : Z) (w : Z) (st : State) :
  on_track N st → on_track N (onResize (set_innerWidth w st)).
Proof.
  intros [(s & Hs & Hlen) Hr]. split.
  - unfold onResize. set (st1 := set_currentSlide 0 (set_innerWidth w st)).
    destruct (updateArrowVisibility_frame (updateSlider st1)) as (_ & _ & _ & _ & ->).
    destruct (updateSlider_frame st1) as (_ & _ & _ & _ & Hc).
    change (document st1) with (document st) in Hc. rewrite Hs in Hc.
    destruct (imageSlider (document (updateSlider st1))) as [s'|]; [| done].
    exists s'. split; [done |]. injection Hc as ->. done.
  - unfold in_range in *. rewrite onResize_currentSlide. lia.
Qed.

Lemma handle_on_track (N : Z) (e : Event) (st : State) :
  5 ≤ N → on_track N st → on_track N (handle e st).
Proof.
  intros HN Hinv. destruct e as [d | d | | | w | h]; simpl.
  - unfold handleArrowClick.
    by apply startScrolling_on_track, scrollSlider_on_track.
  - by apply startScrolling_on_track.
  - by apply stopScrolling_on_track.
  - by apply stopScrolling_on_track.
  - by apply onResize_on_track.
  - destruct (active (timers st) !! h); [by apply scrollSlider_on_track | done].
Qed.

(** X9. On a page of at least five images, mounted at any width, the
    offset is within [[0, N)] after any sequence of events. *)
Lemma offset_always_on_track (w : Z) (n : nat) (es : list Event) :
  (5 ≤ n)%nat → in_range (Z.of_nat n) (run es (mounted w n)).
Proof.
  intros Hn.
  cut (on_track (Z.of_nat n) (run es (mounted w n))); [by intros [_ ?] |].
  assert (H0 : on_track (Z.of_nat n) (mounted w n)).
  { split; [apply mounted_slider; lia | split; simpl; lia]. }
  revert H0. generalize (mounted w n).
  induction es as [| e es IH]; intros st Hinv; [done |].
  apply IH, handle_on_track; [lia | done].
Qed.

(** ** Right, then left *)



(** ** Arrow visibility *)

Lemma updateSlider_document (st : State) :
  previousImages (document (updateSlider st)) = previousImages (document st)
  ∧ nextImages (document (updateSlider st)) = nextImages (document st)
  ∧ (0 ≤ currentSlide st →
     (style_transform <$> imageSlider (document (updateSlider st)))
     = ((λ _, Some (TranslateXNeg (currentSlide st) (getImagesPerRow st)))
          <$> imageSlider (document st))).
Proof.
  unfold updateSlider.
  destruct (imageSlider (document st)) as [s|] eqn:E; [| by rewrite E].
  case_bool_decide; simpl; rewrite ?E; repeat split; try done; lia.
Qed.

(** What [updateArrowVisibility] computes, in any state: the left flag is
    [offset > 0]; the right flag compares against the constant 34, not
    against the number of images on the track. *)
Lemma updateArrowVisibility_flags (st : State) :
  showLeftArrow (updateArrowVisibility st) = bool_decide (currentSlide st > 0)
  ∧ showRightArrow (updateArrowVisibility st)
    = bool_decide (currentSlide st < 34 - getImagesPerRow st)
  ∧ (style_display <$> previousImages (document (updateArrowVisibility st)))
    = ((λ _, Some (display_of (bool_decide (currentSlide st > 0))))
         <$> previousImages (document st))
  ∧ (style_display <$> nextImages (document (updateArrowVisibility st)))
    = ((λ _, Some (display_of
                     (bool_decide (currentSlide st < 34 - getImagesPerRow st))))
         <$> nextImages (document st)).
Proof.
  repeat split; try done.
  - simpl. by destruct (previousImages (document st)).
  - simpl. by destruct (nextImages (document st)).
Qed.

Lemma scrollSlider_arrows (d : string) (st : State) (slider : SliderElement) :
  imageSlider (document st) = Some slider →
  let st' := scrollSlider d st in
  showLeftArrow st' = bool_decide (currentSlide st' > 0)
  ∧ showRightArrow st' = bool_decide (currentSlide st' < 34 - getImagesPerRow st').
Proof.
  intros Hs st'. subst st'. unfold scrollSlider. rewrite Hs.
  set (st1 := updateSlider _).
  destruct (updateArrowVisibility_flags st1) as (-> & -> & _).
  destruct (updateArrowVisibility_frame st1) as (Hw & -> & _).
  by rewrite (getImagesPerRow_width _ _ Hw).
Qed.

(** With exactly 34 images the flags are the ones of the contract. *)
Lemma scrollSlider_arrows_34 (d : string) (st : State) (slider : SliderElement) :
  imageSlider (document st) = Some slider →
  originalImagesCount_of slider = 34 →
  let st' := scrollSlider d st in
  showLeftArrow st' = bool_decide (currentSlide st' > 0)
  ∧ showRightArrow st'
    = bool_decide (currentSlide st'
                   < originalImagesCount_of slider - getImagesPerRow st').
Proof. intros Hs ->. exact (scrollSlider_arrows d st slider Hs). Qed.

(** C6: the code at a track of 10 images, 5 per row.  One step right puts
    the offset at 5 = 10 - 5, the last row, where the right arrow is to be
    hidden; [updateArrowVisibility] compares with 34 - 5 and shows it. *)
Theorem arrow_visibility_ignores_image_count :
  let st := scrollSlider "right" (mounted 1024 10) in
  originalImagesCount_of (track 10) = 10
  ∧ getImagesPerRow st = 5
  ∧ currentSlide st = 5
  ∧ showLeftArrow st = true
  ∧ showRightArrow st = true
  ∧ bool_decide (currentSlide st < 10 - getImagesPerRow st) = false
  ∧ (style_display <$> nextImages (document st)) = Some (Some Flex).
Proof. repeat split; vm_compute; reflexivity. Qed.

(** ** Resize *)

(** C10. The resize listener sets the offset to 0 whatever the previous
    offset, the track and the new width are, and the transform and the
    arrows it then writes are those of offset 0: the transform of slide 0
    at the new images per row, left arrow hidden, right arrow shown. *)
Theorem resize_resets_offset (st : State) (w : Z) :
  let st' := handle (Resize w) st in
  currentSlide st' = 0
  ∧ innerWidth st' = w
  ∧ (style_transform <$> imageSlider (document st'))
    = ((λ _, Some (TranslateXNeg 0 (getImagesPerRow st')))
         <$> imageSlider (document st))
  ∧ showLeftArrow st' = false
  ∧ showRightArrow st' = true
  ∧ (style_display <$> previousImages (document st'))
    = ((λ _, Some DisplayNone) <$> previousImages (document st))
  ∧ (style_display <$> nextImages (document st'))
    = ((λ _, Some Flex) <$> nextImages (document st)).
Proof.
  set (st1 := set_currentSlide 0 (set_innerWidth w st)).
  change (handle (Resize w) st) with (updateArrowVisibility (updateSlider st1)).
  cbv zeta.
  destruct (updateArrowVisibility_frame (updateSlider st1))
    as (Hw' & Hc' & _ & _ & Hs').
  destruct (updateSlider_frame st1) as (Hw & Hc & _).
  destruct (updateSlider_document st1) as (Hp & Hn & Ht0).
  assert (Ht := Ht0 (Z.le_refl 0)). clear Ht0.
  destruct (updateArrowVisibility_flags (updateSlider st1)) as (Hl & Hr & Hdl & Hdr).
  assert (Hk : getImagesPerRow (updateSlider st1) = getImagesPerRow st1)
    by by apply getImagesPerRow_width.
  assert (Hk' : getImagesPerRow (updateArrowVisibility (updateSlider st1))
                = getImagesPerRow st1) by by apply getImagesPerRow_width.
  assert (Hlt : bool_decide (0 < 34 - getImagesPerRow st1) = true).
  { apply bool_decide_eq_true_2.
    destruct (getImagesPerRow_cases st1) as [-> | [-> | ->]]; lia. }
  change (currentSlide st1) with 0 in Hc, Ht.
  change (document st1) with (document st) in Hp, Hn, Ht.
  rewrite Hc, Hk, Hlt in Hr, Hdr. rewrite Hc in Hl, Hdl.
  rewrite Hp in Hdl. rewrite Hn in Hdr.
  rewrite Hl, Hr, Hdl, Hdr, Hs', Ht, Hk', Hc', Hc, Hw', Hw.
  repeat split; done.
Qed.

(** ** The interval timer *)

Lemma initial_timer_inv (w : Z) (doc : Document) : timer_inv (initial w doc).
Proof. reflexivity. Qed.

Lemma startScrolling_timers (d : string) (st : State) :
  timer_inv st →
  scrollInterval (startScrolling d st) = Some (next_handle (timers st))
  ∧ active (timers (startScrolling d st)) = {[next_handle (timers st) := d]}
  ∧ next_handle (timers (startScrolling d st)) = Pos.succ (next_handle (timers st)).
Proof.
  unfold timer_inv, startScrolling.
  destruct (scrollInterval st) as [h|]; simpl.
  - intros [[d0 ->] _]. repeat split; try done.
    by rewrite delete_singleton_eq.
  - intros ->. done.
Qed.

Lemma startScrolling_inv (d : string) (st : State) :
  timer_inv st → timer_inv (startScrolling d st).
Proof.
  intros Hinv. destruct (startScrolling_timers d st Hinv) as (Hh & Ha & Hn).
  unfold timer_inv. rewrite Hh, Ha, Hn. split; [by exists d | lia].
Qed.

Lemma stopScrolling_timers (st : State) :
  timer_inv st →
  scrollInterval (stopScrolling st) = None
  ∧ active (timers (stopScrolling st)) = ∅.
Proof.
  unfold timer_inv, stopScrolling.
  destruct (scrollInterval st) as [h|] eqn:E; simpl.
  - intros [[d0 ->] _]. by rewrite delete_singleton_eq.
  - intros ->. by rewrite E.
Qed.

Lemma stopScrolling_inv (st : State) : timer_inv st → timer_inv (stopScrolling st).
Proof.
  intros Hinv. destruct (stopScrolling_timers st Hinv) as (Hh & Ha).
  unfold timer_inv. by rewrite Hh.
Qed.

Lemma timer_inv_frame (st st' : State) :
  timers st' = timers st → scrollInterval st' = scrollInterval st →
  timer_inv st → timer_inv st'.
Proof. unfold timer_inv. by intros -> ->. Qed.

Lemma scrollSlider_inv (d : string) (st : State) :
  timer_inv st → timer_inv (scrollSlider d st).
Proof.
  destruct (scrollSlider_frame d st) as (_ & Ht & Hh & _).
  by apply timer_inv_frame.
Qed.

Lemma onResize_frame (st : State) :
  timers (onResize st) = timers st
  ∧ scrollInterval (onResize st) = scrollInterval st.
Proof.
  unfold onResize. set (st1 := set_currentSlide 0 st).
  destruct (updateArrowVisibility_frame (updateSlider st1)) as (_ & _ & -> & -> & _).
  by destruct (updateSlider_frame st1) as (_ & _ & -> & -> & _).
Qed.

Lemma handle_inv (e : Event) (st : State) : timer_inv st → timer_inv (handle e st).
Proof.
  intros Hinv. destruct e as [d | d | | | w | h]; simpl.
  - unfold handleArrowClick. by apply startScrolling_inv, scrollSlider_inv.
  - by apply startScrolling_inv.
  - by apply stopScrolling_inv.
  - by apply stopScrolling_inv.
  - destruct (onResize_frame (set_innerWidth w st)) as (Ht & Hh).
    by apply (timer_inv_frame st).
  - destruct (active (timers st) !! h); [by apply scrollSlider_inv | done].
Qed.

Lemma run_inv (es : list Event) (st : State) : timer_inv st → timer_inv (run es st).
Proof.
  revert st. induction es as [| e es IH]; intros st Hinv; [done |].
  apply IH. by apply handle_inv.
Qed.

Lemma timer_inv_size (st : State) :
  timer_inv st → (size (active (timers st)) ≤ 1)%nat.
Proof.
  unfold timer_inv. destruct (scrollInterval st).
  - intros [[d ->] _]. by rewrite map_size_singleton.
  - intros ->. rewrite map_size_empty. lia.
Qed.

(** C7. After any sequence of events from module load (starts, stops,
    clicks, timer ticks, resizes) at most one timer is active.  Starting
    from there cancels the timer that was active, if there was one;
    starting twice in a row leaves exactly one active timer, the second
    one, and a single stop then leaves none. *)
Theorem at_most_one_timer (w : Z) (doc : Document) (es : list Event)
    (d1 d2 : string) :
  let st := run es (initial w doc) in
  (size (active (timers st)) ≤ 1)%nat
  ∧ (∀ h, is_Some (active (timers st) !! h) →
          active (timers (startScrolling d1 st)) !! h = None)
  ∧ size (active (timers (startScrolling d2 (startScrolling d1 st)))) = 1%nat
  ∧ (∃ h, scrollInterval (startScrolling d2 (startScrolling d1 st)) = Some h
          ∧ active (timers (startScrolling d2 (startScrolling d1 st)))
            = {[h := d2]})
  ∧ active (timers (stopScrolling (startScrolling d2 (startScrolling d1 st)))) = ∅
  ∧ scrollInterval (stopScrolling (startScrolling d2 (startScrolling d1 st))) = None.
Proof.
  intros st.
  assert (Hinv : timer_inv st) by apply run_inv, initial_timer_inv.
  pose proof (startScrolling_inv d1 st Hinv) as Hinv1.
  pose proof (startScrolling_inv d2 _ Hinv1) as Hinv2.
  destruct (startScrolling_timers d1 st Hinv) as (Hh1 & Ha1 & Hn1).
  destruct (startScrolling_timers d2 _ Hinv1) as (Hh2 & Ha2 & Hn2).
  destruct (stopScrolling_timers _ Hinv2) as (Hh3 & Ha3).
  split; [by apply timer_inv_size |].
  split.
  { intros h [d Hd]. rewrite Ha1. apply lookup_singleton_ne.
    unfold timer_inv in Hinv. destruct (scrollInterval st) as [h0|].
    - destruct Hinv as [[d0 Hact] Hlt]. rewrite Hact in Hd.
      apply lookup_singleton_Some in Hd as [<- _]. lia.
    - rewrite Hinv in Hd. by rewrite lookup_empty in Hd. }
  split; [by rewrite Ha2, map_size_singleton |].
  split; [by eexists |].
  done.
Qed.

Lemma at_most_one_timer_witness :
  let st := run [MouseDown "left"] (initial 1024 (Collection (gallery 34))) in
  is_Some (active (timers st) !! 1%positive)
  ∧ active (timers (startScrolling "right" st)) !! 1%positive = None.
Proof.
  split; [by exists "left" |].
  apply (at_most_one_timer 1024 (Collection (gallery 34)) [MouseDown "left"]
           "right" "right").
  by exists "left".
Defined.

(** C8. On any state reached from module load, [stopScrolling] leaves
    [scrollInterval] empty and no timer active; and when no timer is
    active it returns the state as it was.  It is a total function: there
    is no failing case. *)
Theorem stopScrolling_cancels (w : Z) (doc : Document) (es : list Event) :
  let st := run es (initial w doc) in
  scrollInterval (stopScrolling st) = None
  ∧ active (timers (stopScrolling st)) = ∅
  ∧ (∀ h, scrollInterval st = Some h →
          timers (stopScrolling st) = clearInterval h (timers st))
  ∧ (active (timers st) = ∅ → stopScrolling st = st).
Proof.
  intros st.
  assert (Hinv : timer_inv st) by apply run_inv, initial_timer_inv.
  destruct (stopScrolling_timers st Hinv) as (Hh & Ha).
  repeat split; try done.
  - intros h Hs. unfold stopScrolling. by rewrite Hs.
  - intros Hempty. unfold stopScrolling, timer_inv in *.
    destruct (scrollInterval st) as [h|]; [| done].
    destruct Hinv as [[d Hd] _]. rewrite Hd in Hempty.
    exfalso. by apply (map_non_empty_singleton h d).
Qed.

Lemma stopScrolling_cancels_witness :
  let st := run [MouseDown "left"; MouseUp] (initial 1024 (Collection (gallery 34))) in
  active (timers st) = ∅ ∧ stopScrolling st = st.
Proof.
  assert (H : active (timers (run [MouseDown "left"; MouseUp]
                                (initial 1024 (Collection (gallery 34))))) = ∅).
  { reflexivity. }
  split; [exact H |].
  apply (stopScrolling_cancels 1024 (Collection (gallery 34))
           [MouseDown "left"; MouseUp]).
  exact H.
Defined.

(** ** The loader's outcomes *)

Module LoaderProps.
Import Loader.

Lemma loader_critical
    (gpv : Request → Z → PaginationVariables)
    (helper : Request → string → CollectionData → Outcome unit)
    (args : LoaderArgs) :
  loader gpv helper args = loadCriticalData gpv helper args.
Proof. unfold loader. by destruct (loadCriticalData gpv helper args). Qed.

(** C9, as stated, fails: the collection exists, and the loader throws
    the helper's redirect instead of returning it. *)
Lemma localized_handle_is_not_returned :
  let args := args_for (Some "chemises") in
  query (storefront args)
    {| var_handle := "chemises";
       var_pagination := first_page (request args) 8 |}
  = Return (Some shirts)
  ∧ loader first_page redirect_when_localized args
    = Throw (ThrownResponse (redirect "/collections/shirts"))
  ∧ loader first_page redirect_when_localized args
    ≠ Return {| collection := shirts |}.
Proof. repeat split; vm_compute; congruence. Qed.

(** C9, amended. A missing handle makes the loader throw a redirect to
    [/collections]; a handle whose query answers without a collection
    makes it throw a 404 response; and when the query answers with a
    collection neither of the two is thrown: the loader returns the
    collection if [redirectIfHandleIsLocalized] returns, and throws what
    that helper throws otherwise. *)
Theorem loader_outcomes
    (gpv : Request → Z → PaginationVariables)
    (helper : Request → string → CollectionData → Outcome unit)
    (args : LoaderArgs) :
  (params_handle args = None →
   loader gpv helper args = Throw (ThrownResponse (redirect "/collections")))
  ∧ (∀ h, params_handle args = Some h → h ≠ "" →
       query (storefront args)
         {| var_handle := h; var_pagination := gpv (request args) 8 |}
       = Return None →
       loader gpv helper args
       = Throw (ThrownResponse
                  {| body := Some ("Collection " +:+ h +:+ " not found");
                     status := 404; location := None |}))
  ∧ (∀ h c, params_handle args = Some h → h ≠ "" →
       query (storefront args)
         {| var_handle := h; var_pagination := gpv (request args) 8 |}
       = Return (Some c) →
       (helper (request args) h c = Return tt →
        loader gpv helper args = Return {| collection := c |})
       ∧ (∀ t, helper (request args) h c = Throw t →
               loader gpv helper args = Throw t)).
Proof.
  rewrite loader_critical. unfold loadCriticalData.
  split; [| split].
  - by intros ->.
  - intros h -> Hne Hq. simpl.
    rewrite bool_decide_eq_false_2 by done. by rewrite Hq.
  - intros h c -> Hne Hq. simpl.
    rewrite bool_decide_eq_false_2 by done. rewrite Hq. simpl.
    split; [by intros -> | by intros t ->].
Qed.

Lemma loader_outcomes_witness :
  (params_handle (args_for None) = None
   ∧ loader first_page redirect_when_localized (args_for None)
     = Throw (ThrownResponse (redirect "/collections")))
  ∧ (params_handle (args_for (Some "hats")) = Some "hats"
     ∧ loader first_page redirect_when_localized (args_for (Some "hats"))
       = Throw (ThrownResponse
                  {| body := Some "Collection hats not found";
                     status := 404; location := None |}))
  ∧ (params_handle (args_for (Some "shirts")) = Some "shirts"
     ∧ loader first_page redirect_when_localized (args_for (Some "shirts"))
       = Return {| collection := shirts |}).
Proof.
  split; [| split].
  - split; [reflexivity |].
    destruct (loader_outcomes first_page redirect_when_localized
                (args_for None)) as (H & _ & _).
    apply H. reflexivity.
  - split; [reflexivity |].
    destruct (loader_outcomes first_page redirect_when_localized
                (args_for (Some "hats"))) as (_ & H & _).
    apply (H "hats"); [reflexivity | discriminate | reflexivity].
  - split; [reflexivity |].
    destruct (loader_outcomes first_page redirect_when_localized
                (args_for (Some "shirts"))) as (_ & _ & H).
    apply (H "shirts" shirts); [reflexivity | discriminate | reflexivity
                               | reflexivity].
Defined.

End LoaderProps.

(** * Further properties of the carousel *)

(** ** What a refresh establishes *)

(** [updateSlider] then [updateArrowVisibility], the tail of every handler
    that moves the offset, leaves flags, buttons and transform in step
    with the offset. *)
Lemma refresh_consistent (st : State) :
  let st' := updateArrowVisibility (updateSlider st) in
  arrows_consistent st' ∧ buttons_consistent st' ∧ transform_synced st'.
Proof.
  destruct st as [w [[[ch tr]|] [[pd]|] [[nd]|]] t o l r h];
    unfold updateSlider; simpl; try case_bool_decide;
    repeat split; try done; intros Ho; simpl in *; lia.
Qed.

Lemma set_timers_consistent (t : Timers) (h : option positive) (st : State) :
  arrows_consistent st ∧ buttons_consistent st ∧ transform_synced st →
  arrows_consistent (set_timers t h st)
  ∧ buttons_consistent (set_timers t h st)
  ∧ transform_synced (set_timers t h st).
Proof. done. Qed.

Lemma handle_consistent (e : Event) (st : State) :
  arrows_consistent st ∧ buttons_consistent st ∧ transform_synced st →
  arrows_consistent (handle e st)
  ∧ buttons_consistent (handle e st)
  ∧ transform_synced (handle e st).
Proof.
  intros Hinv.
  assert (Hscroll : ∀ d,
    arrows_consistent (scrollSlider d st)
    ∧ buttons_consistent (scrollSlider d st)
    ∧ transform_synced (scrollSlider d st)).
  { intros d. unfold scrollSlider.
    destruct (imageSlider (document st)); [apply refresh_consistent | done]. }
  assert (Hstop : ∀ st0,
    arrows_consistent st0 ∧ buttons_consistent st0 ∧ transform_synced st0 →
    arrows_consistent (stopScrolling st0)
    ∧ buttons_consistent (stopScrolling st0)
    ∧ transform_synced (stopScrolling st0)).
  { intros st0 H0. unfold stopScrolling.
    destruct (scrollInterval st0); [by apply set_timers_consistent | done]. }
  destruct e as [d | d | | | w | h]; simpl.
  - unfold handleArrowClick, startScrolling.
    apply set_timers_consistent, Hscroll.
  - unfold startScrolling. by apply set_timers_consistent.
  - by apply Hstop.
  - by apply Hstop.
  - apply refresh_consistent.
  - destruct (active (timers st) !! h); [apply Hscroll | done].
Qed.

Lemma run_consistent (es : list Event) (st : State) :
  arrows_consistent st ∧ buttons_consistent st ∧ transform_synced st →
  arrows_consistent (run es st)
  ∧ buttons_consistent (run es st)
  ∧ transform_synced (run es st).
Proof.
  revert st. induction es as [| e es IH]; intros st Hinv; [done |].
  apply IH. by apply handle_consistent.
Qed.

Lemma initial_consistent (w : Z) (images : list string) :
  arrows_consistent (initial w (Collection images))
  ∧ buttons_consistent (initial w (Collection images))
  ∧ transform_synced (initial w (Collection images)).
Proof.
  split; [| split].
  - split; [done |]. simpl. symmetry. apply bool_decide_eq_true_2.
    destruct (getImagesPerRow_cases (initial w (Collection images)))
      as [-> | [-> | ->]]; unfold arrowImagesCount; lia.
  - unfold Collection. by case_bool_decide.
  - unfold transform_synced, Collection. by case_bool_decide.
Qed.

(** X1. From module load on any rendered page and after any sequence of
    events, the two arrow flags are functions of the offset: the left one
    is [offset > 0], the right one [offset < 34 - imagesPerRow] at the
    current width. *)
Theorem arrow_flags_follow_offset (w : Z) (images : list string)
    (es : list Event) :
  let st := run es (initial w (Collection images)) in
  showLeftArrow st = bool_decide (currentSlide st > 0)
  ∧ showRightArrow st = bool_decide (currentSlide st < 34 - getImagesPerRow st).
Proof. apply run_consistent, initial_consistent. Qed.

(** X2. After any sequence of events, an arrow button whose display was
    ever written shows [flex] exactly when its flag is set, and [none]
    otherwise: the document never disagrees with the flags. *)
Theorem buttons_mirror_flags (w : Z) (images : list string) (es : list Event) :
  let st := run es (initial w (Collection images)) in
  (∀ d, (previousImages (document st) ≫= style_display) = Some d →
        d = display_of (showLeftArrow st))
  ∧ (∀ d, (nextImages (document st) ≫= style_display) = Some d →
          d = display_of (showRightArrow st)).
Proof.
  intros st.
  destruct (run_consistent es _ (initial_consistent w images)) as (_ & [Hl Hr] & _).
  fold st in Hl, Hr. unfold button_mirrors in *.
  split; intros d Hd.
  - destruct (previousImages (document st)) as [[[d'|]]|]; simpl in Hd;
      by simplify_eq.
  - destruct (nextImages (document st)) as [[[d'|]]|]; simpl in Hd;
      by simplify_eq.
Qed.

Lemma buttons_mirror_flags_witness :
  let st := run [Click "right"] (initial 1024 (Collection (gallery 34))) in
  (previousImages (document st) ≫= style_display) = Some Flex
  ∧ Flex = display_of (showLeftArrow st).
Proof.
  split; [reflexivity |].
  destruct (buttons_mirror_flags 1024 (gallery 34) [Click "right"]) as [H _].
  apply H. reflexivity.
Defined.

(** A step that lands on a negative offset leaves the slider element,
    and so its transform, as it was. *)
Lemma scrollSlider_negative_keeps_slider (d : string) (st : State) :
  currentSlide (scrollSlider d st) < 0 →
  imageSlider (document (scrollSlider d st)) = imageSlider (document st).
Proof.
  destruct (imageSlider (document st)) as [s|] eqn:E;
    [| by rewrite (scrollSlider_unmounted d st E)].
  rewrite (scrollSlider_currentSlide d st s E). intros Hneg.
  unfold scrollSlider. rewrite E.
  set (st1 := set_currentSlide _ st).
  rewrite (updateSlider_negative st1) by done.
  by destruct (updateArrowVisibility_frame st1) as (_ & _ & _ & _ & ->).
Qed.

(** X3. After any sequence of events, whenever the offset is not negative
    the transform on the mounted track is the one of the current offset at
    the current images per row, and it is still unset only if the offset
    is 0.  A step that lands on a negative offset assigns a text that is
    not CSS, and the track keeps the transform it had. *)
Theorem transform_follows_offset (w : Z) (images : list string)
    (es : list Event) :
  let st := run es (initial w (Collection images)) in
  (∀ slider, imageSlider (document st) = Some slider →
     0 ≤ currentSlide st →
     match style_transform slider with
     | None => currentSlide st = 0
     | Some t => t = TranslateXNeg (currentSlide st) (getImagesPerRow st)
     end)
  ∧ (∀ d, currentSlide (scrollSlider d st) < 0 →
          imageSlider (document (scrollSlider d st))
          = imageSlider (document st)).
Proof.
  intros st. split.
  - intros slider Hs Ho.
    destruct (run_consistent es _ (initial_consistent w images)) as (_ & _ & Ht).
    fold st in Ht. unfold transform_synced in Ht.
    specialize (Ht Ho). by rewrite Hs in Ht.
  - intros d. apply scrollSlider_negative_keeps_slider.
Qed.

Lemma transform_follows_offset_witness :
  let st := run [Click "right"; Click "right"]
              (initial 1024 (Collection (gallery 34))) in
  let st2 := run [] (initial 1024 (Collection (gallery 2))) in
  (imageSlider (document st)
   = Some {| children := children (track 34);
             style_transform := Some (TranslateXNeg 10 5) |}
   ∧ 0 ≤ currentSlide st
   ∧ TranslateXNeg 10 5 = TranslateXNeg (currentSlide st) (getImagesPerRow st))
  ∧ (currentSlide (scrollSlider "left" st2) < 0
     ∧ imageSlider (document (scrollSlider "left" st2))
       = imageSlider (document st2)).
Proof.
  split.
  - split; [reflexivity |]. split; [vm_compute; discriminate |].
    destruct (transform_follows_offset 1024 (gallery 34)
                [Click "right"; Click "right"]) as [H _].
    apply (H {| children := children (track 34);
                style_transform := Some (TranslateXNeg 10 5) |});
      [reflexivity | vm_compute; discriminate].
  - split; [reflexivity |].
    destruct (transform_follows_offset 1024 (gallery 2) []) as [_ H].
    apply (H "left"). reflexivity.
Defined.

(** ** More on the timer *)

(** X4. [stopScrolling] is idempotent on every state, so the [mouseup]
    that reaches both the button and the document stops once and then does
    nothing. *)
Theorem stopScrolling_idempotent (st : State) :
  stopScrolling (stopScrolling st) = stopScrolling st.
Proof.
  unfold stopScrolling at 2 3. destruct (scrollInterval st) eqn:E.
  - reflexivity.
  - unfold stopScrolling. by rewrite E.
Qed.

(** X5. Once [stopScrolling] has run on a state reached from module load,
    no timer callback changes anything: whatever handle fires, the state
    stays as it is. *)
Theorem no_tick_after_stop (w : Z) (doc : Document) (es : list Event)
    (h : positive) :
  let st := stopScrolling (run es (initial w doc)) in
  handle (Tick h) st = st.
Proof.
  intros st.
  change (handle (Tick h) st)
    with (match active (timers st) !! h with
          | Some d0 => scrollSlider d0 st
          | None => st
          end).
  assert (Hinv : timer_inv (run es (initial w doc)))
    by apply run_inv, initial_timer_inv.
  destruct (stopScrolling_timers _ Hinv) as (_ & Ha).
  fold st in Ha. by rewrite Ha, lookup_empty.
Qed.

(** X6. After [startScrolling d] on a state reached from module load, the
    only callback that still does something is the one of the handle just
    stored, and it scrolls in direction [d], whatever direction the
    replaced timer had. *)
Theorem restart_takes_direction (w : Z) (doc : Document) (es : list Event)
    (d : string) (h : positive) :
  let st := startScrolling d (run es (initial w doc)) in
  handle (Tick h) st
  = if bool_decide (scrollInterval st = Some h) then scrollSlider d st else st.
Proof.
  intros st.
  change (handle (Tick h) st)
    with (match active (timers st) !! h with
          | Some d0 => scrollSlider d0 st
          | None => st
          end).
  assert (Hinv : timer_inv (run es (initial w doc)))
    by apply run_inv, initial_timer_inv.
  destruct (startScrolling_timers d _ Hinv) as (Hh & Ha & _).
  fold st in Hh, Ha. rewrite Hh, Ha.
  case_bool_decide as Heq.
  - injection Heq as ->. by rewrite lookup_singleton_eq.
  - rewrite lookup_singleton_ne; [done | congruence].
Qed.

Lemma startScrolling_view (d : string) (st : State) :
  document (startScrolling d st) = document st
  ∧ innerWidth (startScrolling d st) = innerWidth st
  ∧ currentSlide (startScrolling d st) = currentSlide st.
Proof. done. Qed.

Lemma stopScrolling_view (st : State) :
  document (stopScrolling st) = document st
  ∧ innerWidth (stopScrolling st) = innerWidth st
  ∧ currentSlide (stopScrolling st) = currentSlide st.
Proof. unfold stopScrolling. by destruct (scrollInterval st). Qed.

(** The offset [scrollSlider] computes depends on the document, the width
    and the offset only. *)
Lemma scrollSlider_currentSlide_ext (d : string) (st st' : State) :
  document st' = document st →
  innerWidth st' = innerWidth st →
  currentSlide st' = currentSlide st →
  currentSlide (scrollSlider d st') = currentSlide (scrollSlider d st).
Proof.
  intros Hd Hw Ho.
  destruct (imageSlider (document st)) as [s|] eqn:E.
  - rewrite (scrollSlider_currentSlide d st s E).
    rewrite (scrollSlider_currentSlide d st' s) by by rewrite Hd.
    by rewrite (getImagesPerRow_width st st' Hw), Ho.
  - rewrite (scrollSlider_unmounted d st E).
    by rewrite (scrollSlider_unmounted d st') by by rewrite Hd.
Qed.

(** X7. A whole press on an arrow, as the browser delivers it
    ([mousedown]; [mouseup], which reaches the button and then the
    document; then [click]), moves the offset by exactly one
    [scrollSlider] step and ends with one timer running in that
    direction: the [click] handler restarts continuous scrolling after the
    [mouseup] has stopped it. *)
Theorem press_leaves_timer_running (w : Z) (doc : Document) (es : list Event)
    (d : string) :
  let st0 := run es (initial w doc) in
  let st := run [MouseDown d; MouseUp; MouseUp; Click d] st0 in
  currentSlide st = currentSlide (scrollSlider d st0)
  ∧ ∃ h, scrollInterval st = Some h ∧ active (timers st) = {[h := d]}.
Proof.
  intros st0 st.
  assert (Hinv : timer_inv st0) by apply run_inv, initial_timer_inv.
  set (st2 := stopScrolling (stopScrolling (startScrolling d st0))).
  assert (Hinv2 : timer_inv st2)
    by by apply stopScrolling_inv, stopScrolling_inv, startScrolling_inv.
  change st with (handleArrowClick d st2). unfold handleArrowClick.
  split.
  - destruct (startScrolling_view d (scrollSlider d st2)) as (_ & _ & ->).
    destruct (stopScrolling_view (stopScrolling (startScrolling d st0)))
      as (Hd1 & Hw1 & Ho1).
    destruct (stopScrolling_view (startScrolling d st0)) as (Hd & Hw & Ho).
    destruct (startScrolling_view d st0) as (Hd' & Hw' & Ho').
    apply scrollSlider_currentSlide_ext; subst st2; congruence.
  - pose proof (scrollSlider_inv d _ Hinv2) as Hinv3.
    destruct (startScrolling_timers d _ Hinv3) as (Hh & Ha & _).
    eexists. split; [exact Hh | exact Ha].
Qed.

(** ** Without a slider *)

Lemma handle_unmounted (e : Event) (st : State) :
  imageSlider (document st) = None ∧ currentSlide st = 0 →
  imageSlider (document (handle e st)) = None ∧ currentSlide (handle e st) = 0.
Proof.
  intros [Hs Ho].
  destruct e as [d | d | | | w | h]; simpl.
  - unfold handleArrowClick. by rewrite (scrollSlider_unmounted d st Hs).
  - done.
  - unfold stopScrolling. by destruct (scrollInterval st).
  - unfold stopScrolling. by destruct (scrollInterval st).
  - unfold onResize, updateSlider. simpl. by rewrite Hs.
  - destruct (active (timers st) !! h); [| done].
    by rewrite (scrollSlider_unmounted _ st Hs).
Qed.

(** X8. While no slider is mounted (a page without images), no sequence of
    clicks, holds, timer ticks and resizes moves the offset from 0: the
    handlers return before touching it. *)
Theorem offset_stays_without_slider (w : Z) (doc : Document) (es : list Event) :
  imageSlider doc = None →
  currentSlide (run es (initial w doc)) = 0.
Proof.
  intros Hs.
  cut (imageSlider (document (run es (initial w doc))) = None
       ∧ currentSlide (run es (initial w doc)) = 0); [by intros [_ ?] |].
  assert (H0 : imageSlider (document (initial w doc)) = None
               ∧ currentSlide (initial w doc) = 0) by done.
  revert H0. generalize (initial w doc).
  induction es as [| e es IH]; intros st Hinv; [done |].
  by apply IH, handle_unmounted.
Qed.

Lemma offset_stays_without_slider_witness :
  imageSlider (Collection []) = None
  ∧ currentSlide (run [Click "left"; Tick 1; Resize 800; Click "right"]
                    (initial 1024 (Collection []))) = 0.
Proof.
  split; [reflexivity |].
  apply (offset_stays_without_slider 1024 (Collection [])). reflexivity.
Defined.

(** ** Rows *)

Lemma offset_always_on_track_witness :
  (5 ≤ 34)%nat
  ∧ in_range (Z.of_nat 34)
      (run [Click "left"; Resize 800; Click "left"; Tick 2] (mounted 1024 34)).
Proof.
  split; [lia |].
  apply (offset_always_on_track 1024 34
           [Click "left"; Resize 800; Click "left"; Tick 2]).
  lia.
Defined.

Lemma advance_aligned (d : string) (N k o : Z) :
  (k | N) → (k | o) → (k | advance d N k o).
Proof.
  intros HN Ho. unfold advance.
  destruct (String.eqb d "left"); simpl; case_bool_decide.
  - by apply Z.divide_sub_r.
  - apply Z.divide_sub_r; [done | apply Z.divide_refl].
  - apply Z.divide_0_r.
  - apply Z.divide_add_r; [done | apply Z.divide_refl].
Qed.

Lemma scrollSlider_on_track_le (N : Z) (d : string) (st : State) :
  getImagesPerRow st ≤ N → on_track N st → on_track N (scrollSlider d st).
Proof.
  intros HN [(s & Hs & Hlen) Hr].
  destruct (scrollSlider_same_track d st s Hs) as (s' & Hs' & Hc).
  split; [exists s'; by rewrite Hc |].
  unfold in_range in *. rewrite (scrollSlider_currentSlide _ _ _ Hs).
  rewrite (originalImagesCount_exact _ _ Hlen).
  apply advance_in_range; [| done | done].
  destruct (getImagesPerRow_cases st) as [-> | [-> | ->]]; lia.
Qed.

(** The invariant of a page of [N] images at a width whose images per row
    [k] divides [N]. *)
Lemma scrollSlider_rows (N k : Z) (d : string) (st : State) :
  (k | N) →
  getImagesPerRow st = k ∧ on_track N st ∧ aligned st →
  getImagesPerRow (scrollSlider d st) = k
  ∧ on_track N (scrollSlider d st)
  ∧ aligned (scrollSlider d st).
Proof.
  intros HN (Hk & Htr & Hal).
  assert (Hk' : getImagesPerRow (scrollSlider d st) = k).
  { rewrite <- Hk. apply getImagesPerRow_width.
    by destruct (scrollSlider_frame d st) as (-> & _). }
  assert (HkN : k ≤ N).
  { destruct Htr as [_ Hr]. unfold in_range in Hr.
    apply Z.divide_pos_le; [lia | done]. }
  split; [done |]. split.
  - apply scrollSlider_on_track_le; [by rewrite Hk | done].
  - unfold aligned in *. rewrite Hk'.
    destruct Htr as [(s & Hs & Hlen) _].
    rewrite (scrollSlider_currentSlide _ _ _ Hs).
    rewrite (originalImagesCount_exact _ _ Hlen), Hk.
    apply advance_aligned; [done | by rewrite <- Hk].
Qed.

Lemma handle_rows (N k : Z) (e : Event) (st : State) :
  (k | N) → keeps_width e →
  getImagesPerRow st = k ∧ on_track N st ∧ aligned st →
  getImagesPerRow (handle e st) = k
  ∧ on_track N (handle e st)
  ∧ aligned (handle e st).
Proof.
  intros HN He Hinv.
  destruct e as [d | d | | | w | h]; simpl; try done.
  - unfold handleArrowClick, startScrolling.
    by apply (scrollSlider_rows N k d st HN).
  - unfold stopScrolling. by destruct (scrollInterval st).
  - unfold stopScrolling. by destruct (scrollInterval st).
  - destruct (active (timers st) !! h); [| done].
    by apply scrollSlider_rows.
Qed.

(** X10. On a page with images, at a width whose images per row [k]
    divides the image count [N], every offset reached without resizing is
    the start of a row and leaves a whole row of originals to show:
    [k] divides the offset and [0 <= offset <= N - k]. *)
Theorem rows_stay_whole (w : Z) (n : nat) (es : list Event) :
  n ≠ 0%nat →
  (getImagesPerRow (mounted w n) | Z.of_nat n) →
  Forall keeps_width es →
  let st := run es (mounted w n) in
  (getImagesPerRow st | currentSlide st)
  ∧ 0 ≤ currentSlide st
  ∧ currentSlide st + getImagesPerRow st ≤ Z.of_nat n.
Proof.
  intros Hn Hdiv Hes st.
  set (k := getImagesPerRow (mounted w n)) in *.
  assert (Hinv : getImagesPerRow st = k ∧ on_track (Z.of_nat n) st ∧ aligned st).
  { subst st.
    assert (H0 : getImagesPerRow (mounted w n) = k
                 ∧ on_track (Z.of_nat n) (mounted w n)
                 ∧ aligned (mounted w n)).
    { split; [done |]. split.
      - split; [by apply mounted_slider | split; simpl; lia].
      - apply Z.divide_0_r. }
    revert H0. generalize (mounted w n).
    induction Hes as [| e es He Hes IH]; intros st0 H0; [done |].
    apply IH. by apply handle_rows. }
  destruct Hinv as (Hk & [_ Hr] & Hal). unfold aligned, in_range in *.
  split; [done |]. split; [lia |].
  rewrite Hk in *. destruct Hdiv as [b Hb]. destruct Hal as [a Ha].
  assert (0 < k)
    by (destruct (getImagesPerRow_cases (mounted w n)) as [H | [H | H]];
        fold k in H; lia).
  assert (a < b) by nia. nia.
Qed.

Lemma rows_stay_whole_witness :
  let es := [Click "right"; MouseUp; Click "left"; Click "left"; Tick 3] in
  let st := run es (mounted 800 9) in
  9%nat ≠ 0%nat
  ∧ (getImagesPerRow (mounted 800 9) | Z.of_nat 9)
  ∧ Forall keeps_width es
  ∧ (getImagesPerRow st | currentSlide st)
  ∧ 0 ≤ currentSlide st
  ∧ currentSlide st + getImagesPerRow st ≤ Z.of_nat 9.
Proof.
  assert (Hd : (getImagesPerRow (mounted 800 9) | Z.of_nat 9))
    by (exists 3; reflexivity).
  assert (Hes : Forall keeps_width
                  [Click "right"; MouseUp; Click "left"; Click "left"; Tick 3])
    by (repeat constructor).
  split; [discriminate |]. split; [exact Hd |]. split; [exact Hes |].
  apply (rows_stay_whole 800 9 _ (ltac:(discriminate)) Hd Hes).
Defined.

Lemma iter_scrollSlider_frame (d : string) (j : nat) (st : State) :
  innerWidth (Nat.iter j (scrollSlider d) st) = innerWidth st
  ∧ (children <$> imageSlider (document (Nat.iter j (scrollSlider d) st)))
    = (children <$> imageSlider (document st)).
Proof.
  induction j as [| j [IHw IHc]]; [done |]. simpl.
  destruct (scrollSlider_frame d (Nat.iter j (scrollSlider d) st))
    as (-> & _ & _ & ->).
  done.
Qed.

(** X11. From offset 0 on a mounted track of [N] images, [j] steps to the
    right (clicks, or ticks of a held arrow) put the offset at [j * k] as
    long as [j * k < N]; the step that would reach or pass [N] puts it
    back at 0. *)
Theorem right_steps_visit_rows (st : State) (slider : SliderElement) (N : Z)
    (j : nat) :
  imageSlider (document st) = Some slider →
  Z.of_nat (length (children slider)) = 2 * N →
  currentSlide st = 0 →
  Z.of_nat j * getImagesPerRow st < N →
  currentSlide (Nat.iter j (scrollSlider "right") st)
  = Z.of_nat j * getImagesPerRow st
  ∧ (N ≤ (Z.of_nat j + 1) * getImagesPerRow st →
     currentSlide (Nat.iter (S j) (scrollSlider "right") st) = 0).
Proof.
  intros Hs Hlen H0.
  assert (Hpos : 0 < getImagesPerRow st)
    by (destruct (getImagesPerRow_cases st) as [-> | [-> | ->]]; lia).
  assert (Hstep : ∀ i : nat,
    currentSlide (Nat.iter (S i) (scrollSlider "right") st)
    = advance "right" N (getImagesPerRow st)
        (currentSlide (Nat.iter i (scrollSlider "right") st))).
  { intros i. simpl.
    destruct (iter_scrollSlider_frame "right" i st) as (Hw & Hc).
    rewrite Hs in Hc. simpl in Hc.
    destruct (imageSlider (document (Nat.iter i (scrollSlider "right") st)))
      as [s'|] eqn:E; [| done].
    injection Hc as Hc.
    rewrite (scrollSlider_currentSlide _ _ _ E).
    assert (Hlen' : Z.of_nat (length (children s')) = 2 * N) by by rewrite Hc.
    by rewrite (originalImagesCount_exact _ _ Hlen'),
               (getImagesPerRow_width _ _ Hw). }
  assert (Hj : ∀ i : nat, Z.of_nat i * getImagesPerRow st < N →
    currentSlide (Nat.iter i (scrollSlider "right") st)
    = Z.of_nat i * getImagesPerRow st).
  { induction i as [| i IH]; intros Hi; [by rewrite Z.mul_0_l |].
    rewrite Hstep, IH by lia. rewrite advance_right.
    case_bool_decide; lia. }
  intros Hlt. split; [by apply Hj |].
  intros Hge. rewrite Hstep, Hj by done. rewrite advance_right.
  case_bool_decide; lia.
Qed.

Lemma right_steps_visit_rows_witness :
  let st := mounted 1024 34 in
  imageSlider (document st) = Some (track 34)
  ∧ Z.of_nat (length (children (track 34))) = 2 * 34
  ∧ currentSlide st = 0
  ∧ Z.of_nat 6 * getImagesPerRow st < 34
  ∧ currentSlide (Nat.iter 6 (scrollSlider "right") st)
    = Z.of_nat 6 * getImagesPerRow st
  ∧ (34 ≤ (Z.of_nat 6 + 1) * getImagesPerRow st →
     currentSlide (Nat.iter 7 (scrollSlider "right") st) = 0).
Proof.
  split; [reflexivity |]. split; [reflexivity |]. split; [reflexivity |].
  split; [reflexivity |].
  apply (right_steps_visit_rows (mounted 1024 34) (track 34) 34 6);
    reflexivity.
Defined.

(** X12. From any offset on the track that is the start of a row, ['left']
    followed by ['right'] comes back to the same offset, whether or not
    the image count is a multiple of the images per row. *)
Theorem left_then_right_round_trip (st : State) (slider : SliderElement)
    (N : Z) :
  imageSlider (document st) = Some slider →
  Z.of_nat (length (children slider)) = 2 * N →
  (getImagesPerRow st | currentSlide st) →
  in_range N st →
  currentSlide (scrollSlider "right" (scrollSlider "left" st)) = currentSlide st.
Proof.
  intros Hs Hlen [a Ho] Hr. unfold in_range in Hr.
  destruct (scrollSlider_same_track "left" st slider Hs) as (s' & Hs' & Hc).
  rewrite (scrollSlider_currentSlide _ _ _ Hs').
  assert (Hlen' : Z.of_nat (length (children s')) = 2 * N) by by rewrite Hc.
  rewrite (originalImagesCount_exact _ _ Hlen').
  rewrite (getImagesPerRow_width st (scrollSlider "left" st))
    by (by destruct (scrollSlider_frame "left" st) as (-> & _)).
  rewrite (scrollSlider_currentSlide _ _ _ Hs).
  rewrite (originalImagesCount_exact _ _ Hlen).
  rewrite advance_left, advance_right.
  assert (0 < getImagesPerRow st)
    by (destruct (getImagesPerRow_cases st) as [-> | [-> | ->]]; lia).
  repeat case_bool_decide; try lia.
  assert (a ≤ 0) by nia. nia.
Qed.

Lemma left_then_right_round_trip_witness :
  let st := mounted 1024 34 in
  imageSlider (document st) = Some (track 34)
  ∧ Z.of_nat (length (children (track 34))) = 2 * 34
  ∧ (getImagesPerRow st | currentSlide st)
  ∧ in_range 34 st
  ∧ currentSlide (scrollSlider "right" (scrollSlider "left" st))
    = currentSlide st.
Proof.
  assert (Hd : (getImagesPerRow (mounted 1024 34) | currentSlide (mounted 1024 34)))
    by (exists 0; reflexivity).
  assert (Hr : in_range 34 (mounted 1024 34))
    by (split; vm_compute; [discriminate | reflexivity]).
  split; [reflexivity |]. split; [reflexivity |].
  split; [exact Hd |]. split; [exact Hr |].
  exact (left_then_right_round_trip (mounted 1024 34) (track 34) 34
           eq_refl eq_refl Hd Hr).
Defined.

(** ** Right, then left, along runs *)








(** ** The children of the track *)

Lemma image_children_keys (pre class img_class title : string)
    (images : list string) :
  key <$> image_children pre class img_class title images
  = child_keys pre (length images).
Proof.
  apply list_eq. intros i. unfold image_children, child_keys.
  rewrite !list_lookup_fmap, list_lookup_imap.
  destruct (images !! i) as [image|] eqn:E; simpl.
  - rewrite lookup_seq_lt by (by eapply lookup_lt_Some). done.
  - rewrite lookup_seq_ge by (by apply lookup_ge_None). done.
Qed.

Lemma child_keys_NoDup (pre : string) (n : nat) : NoDup (child_keys pre n).
Proof.
  unfold child_keys. apply NoDup_fmap_2; [| apply NoDup_seq].
  intros i j H. by apply (inj pretty), (inj (String.app pre)).
Qed.

(** X13. The React keys of the children [Collection] puts on the track,
    originals and duplicates together, are pairwise distinct; they are the
    children the handlers count, two per image. *)
Theorem track_keys_distinct (title : string) (images : list string) :
  key <$> slider_children title images = children (track (length images))
  ∧ NoDup (children (track (length images)))
  ∧ Z.of_nat (length (slider_children title images))
    = 2 * Z.of_nat (length images).
Proof.
  split; [| split].
  - unfold slider_children. by rewrite fmap_app, !image_children_keys.
  - simpl. apply NoDup_app. split; [apply child_keys_NoDup |].
    split; [| apply child_keys_NoDup].
    intros k [i [-> _]]%list_elem_of_fmap [j [Hk _]]%list_elem_of_fmap.
    discriminate Hk.
  - unfold slider_children, image_children.
    rewrite length_app, !length_imap. lia.
Qed.

(** X14. For every image at index [i], the track holds it twice: child [i]
    and child [length images + i] both show that image under the alt text
    [title - Image (i + 1)].  The two differ in their key and in their
    classes: the duplicate's wrapper carries the width classes
    [md:w-1/3 lg:w-1/5] and its image lacks the rounded border, the hover
    and the pointer classes of the original. *)
Theorem duplicates_mirror_originals (title : string) (images : list string)
    (i : nat) (image : string) :
  images !! i = Some image →
  ∃ c c',
    slider_children title images !! i = Some c
    ∧ slider_children title images !! (length images + i)%nat = Some c'
    ∧ src c = image ∧ src c' = image
    ∧ alt c = title +:+ " - Image " +:+ pretty (i + 1)%nat
    ∧ alt c' = alt c
    ∧ key c = "original-" +:+ pretty i
    ∧ key c' = "duplicate-" +:+ pretty i
    ∧ key c ≠ key c'
    ∧ className c = "w-auto flex-shrink-0"
    ∧ className c' = "w-auto md:w-1/3 lg:w-1/5 flex-shrink-0"
    ∧ img_className c' = "w-auto h-35 md:h-35 lg:h-35 object-cover"
    ∧ img_className c
      = img_className c'
        +:+ " !rounded-lg border border-gray-200 hover:border-gray-600 transition-colors cursor-pointer".
Proof.
  intros Hi. unfold slider_children.
  assert (Hlen : ∀ pre cl icl,
            length (image_children pre cl icl title images) = length images)
    by (intros pre cl icl; apply length_imap).
  assert (Hlook : ∀ pre cl icl, image_children pre cl icl title images !! i
            = Some {| key := pre +:+ pretty i; className := cl; src := image;
                      alt := title +:+ " - Image " +:+ pretty (i + 1)%nat;
                      img_className := icl |}).
  { intros pre cl icl. unfold image_children.
    by rewrite list_lookup_imap, Hi. }
  eexists _, _. split; [| split].
  - rewrite lookup_app_l by (rewrite Hlen; by eapply lookup_lt_Some).
    apply Hlook.
  - rewrite <- (Hlen "original-" original_class original_img_class),
      lookup_app_r by lia.
    replace (_ + i - _)%nat with i by lia. apply Hlook.
  - repeat split; done.
Qed.

Lemma duplicates_mirror_originals_witness :
  ["a.jpg"; "b.jpg"; "c.jpg"] !! 1%nat = Some "b.jpg"
  ∧ ∃ c c',
      slider_children "Shirts" ["a.jpg"; "b.jpg"; "c.jpg"] !! 1%nat = Some c
      ∧ slider_children "Shirts" ["a.jpg"; "b.jpg"; "c.jpg"]
          !! (length ["a.jpg"; "b.jpg"; "c.jpg"] + 1)%nat = Some c'
      ∧ src c = "b.jpg" ∧ src c' = "b.jpg"
      ∧ alt c = "Shirts" +:+ " - Image " +:+ pretty (1 + 1)%nat
      ∧ alt c' = alt c
      ∧ key c = "original-" +:+ pretty 1%nat
      ∧ key c' = "duplicate-" +:+ pretty 1%nat
      ∧ key c ≠ key c'
      ∧ className c = "w-auto flex-shrink-0"
      ∧ className c' = "w-auto md:w-1/3 lg:w-1/5 flex-shrink-0"
      ∧ img_className c' = "w-auto h-35 md:h-35 lg:h-35 object-cover"
      ∧ img_className c
        = img_className c'
          +:+ " !rounded-lg border border-gray-200 hover:border-gray-600 transition-colors cursor-pointer".
Proof.
  split; [reflexivity |].
  apply (duplicates_mirror_originals "Shirts" ["a.jpg"; "b.jpg"; "c.jpg"] 1).
  reflexivity.
Defined.

(** ** Jumping to a row *)

Lemma goToSlide_frame (index : Z) (st : State) :
  innerWidth (goToSlide index st) = innerWidth st
  ∧ (children <$> imageSlider (document (goToSlide index st)))
    = (children <$> imageSlider (document st)).
Proof.
  unfold goToSlide. set (st1 := set_currentSlide _ st).
  destruct (updateArrowVisibility_frame (updateSlider st1))
    as (-> & _ & _ & _ & ->).
  by destruct (updateSlider_frame st1) as (-> & _ & _ & _ & ->).
Qed.

(** X19. [goToSlide] and the arrows agree on what a row is: on a mounted
    track, one step right from row [index] is row [index + 1] as long as
    that row starts before [N], and one step left from row [index >= 1] is
    row [index - 1]. *)
Theorem step_from_row (st : State) (slider : SliderElement) (N index : Z) :
  imageSlider (document st) = Some slider →
  Z.of_nat (length (children slider)) = 2 * N →
  ((index + 1) * getImagesPerRow st < N →
   currentSlide (scrollSlider "right" (goToSlide index st))
   = currentSlide (goToSlide (index + 1) st))
  ∧ (1 ≤ index →
     currentSlide (scrollSlider "left" (goToSlide index st))
     = currentSlide (goToSlide (index - 1) st)).
Proof.
  intros Hs Hlen.
  destruct (goToSlide_frame index st) as (Hw & Hc).
  destruct (imageSlider (document (goToSlide index st))) as [s'|] eqn:E;
    rewrite Hs in Hc; [| done].
  simpl in Hc. injection Hc as Hc.
  assert (Hlen' : Z.of_nat (length (children s')) = 2 * N) by by rewrite Hc.
  assert (Hpos : 0 < getImagesPerRow st)
    by (destruct (getImagesPerRow_cases st) as [-> | [-> | ->]]; lia).
  rewrite !(scrollSlider_currentSlide _ _ _ E).
  rewrite (originalImagesCount_exact _ _ Hlen'),
          (getImagesPerRow_width _ _ Hw), !goToSlide_currentSlide.
  rewrite advance_left, advance_right.
  split; intros H; case_bool_decide; nia.
Qed.

Lemma step_from_row_witness :
  let st := mounted 1024 34 in
  imageSlider (document st) = Some (track 34)
  ∧ Z.of_nat (length (children (track 34))) = 2 * 34
  ∧ (3 + 1) * getImagesPerRow st < 34
  ∧ 1 ≤ 3
  ∧ currentSlide (scrollSlider "right" (goToSlide 3 st))
    = currentSlide (goToSlide (3 + 1) st)
  ∧ currentSlide (scrollSlider "left" (goToSlide 3 st))
    = currentSlide (goToSlide (3 - 1) st).
Proof.
  split; [reflexivity |]. split; [reflexivity |]. split; [reflexivity |].
  split; [lia |].
  destruct (step_from_row (mounted 1024 34) (track 34) 34 3 eq_refl eq_refl)
    as [Hr Hl].
  split; [apply Hr; reflexivity | apply Hl; lia].
Defined.

(** * Further properties of the loader *)

Module LoaderMore.
Import Loader.

Lemma loader_is_critical
    (gpv : Request → Z → PaginationVariables)
    (helper : Request → string → CollectionData → Outcome unit)
    (args : LoaderArgs) :
  loader gpv helper args = loadCriticalData gpv helper args.
Proof. unfold loader. by destruct (loadCriticalData gpv helper args). Qed.

Lemma empty_handle_redirects_aux
    (gpv : Request → Z → PaginationVariables)
    (helper : Request → string → CollectionData → Outcome unit)
    (args : LoaderArgs) :
  params_handle args = Some "" →
  loader gpv helper args = Throw (ThrownResponse (redirect "/collections")).
Proof.
  intros H. rewrite loader_is_critical. unfold loadCriticalData. by rewrite H.
Qed.

(** X15. An empty handle is treated as a missing one: the loader throws
    the redirect to [/collections], whatever the storefront and the helper
    would do. *)
Theorem empty_handle_redirects
    (gpv : Request → Z → PaginationVariables)
    (helper : Request → string → CollectionData → Outcome unit)
    (args : LoaderArgs) :
  params_handle args = Some "" →
  loader gpv helper args = Throw (ThrownResponse (redirect "/collections")).
Proof. apply empty_handle_redirects_aux. Qed.

Lemma empty_handle_redirects_witness :
  params_handle (args_for (Some "")) = Some ""
  ∧ loader first_page redirect_when_localized (args_for (Some ""))
    = Throw (ThrownResponse (redirect "/collections")).
Proof.
  split; [reflexivity |].
  apply (empty_handle_redirects first_page redirect_when_localized
           (args_for (Some ""))).
  reflexivity.
Defined.

(** The loader's outcome for a non-empty handle, by what the query and the
    helper do. *)
Lemma loader_query_cases
    (gpv : Request → Z → PaginationVariables)
    (helper : Request → string → CollectionData → Outcome unit)
    (args : LoaderArgs) (h : string) :
  params_handle args = Some h → h ≠ "" →
  loader gpv helper args
  = match query (storefront args)
            {| var_handle := h; var_pagination := gpv (request args) 8 |} with
    | Throw t => Throw t
    | Return None =>
        Throw (ThrownResponse
                 {| body := Some ("Collection " +:+ h +:+ " not found");
                    status := 404; location := None |})
    | Return (Some c) =>
        match helper (request args) h c with
        | Throw t => Throw t
        | Return _ => Return {| collection := c |}
        end
    end.
Proof.
  intros Hh Hne. rewrite loader_is_critical. unfold loadCriticalData.
  rewrite Hh. simpl. rewrite bool_decide_eq_false_2 by done.
  destruct (query _ _) as [[c|]|t]; simpl; done.
Qed.

(** X16. When the storefront query rejects, the loader throws what the
    query threw: no 404 is made up and the helper is not consulted. *)
Theorem query_rejection_propagates
    (gpv : Request → Z → PaginationVariables)
    (helper : Request → string → CollectionData → Outcome unit)
    (args : LoaderArgs) (h : string) (t : Thrown) :
  params_handle args = Some h → h ≠ "" →
  query (storefront args)
    {| var_handle := h; var_pagination := gpv (request args) 8 |} = Throw t →
  loader gpv helper args = Throw t.
Proof.
  intros Hh Hne Hq. by rewrite (loader_query_cases _ _ _ h Hh Hne), Hq.
Qed.

Lemma query_rejection_propagates_witness :
  let args := {| storefront := {| query := λ _, Throw (ThrownError "fetch failed") |};
                 params_handle := Some "shirts";
                 request := {| url := "https://shop.example/collections/shirts" |} |} in
  params_handle args = Some "shirts"
  ∧ "shirts" ≠ ""
  ∧ query (storefront args)
      {| var_handle := "shirts";
         var_pagination := first_page (request args) 8 |}
    = Throw (ThrownError "fetch failed")
  ∧ loader first_page redirect_when_localized args
    = Throw (ThrownError "fetch failed").
Proof.
  split; [reflexivity |]. split; [discriminate |]. split; [reflexivity |].
  apply (query_rejection_propagates first_page redirect_when_localized _
           "shirts" (ThrownError "fetch failed"));
    [reflexivity | discriminate | reflexivity].
Defined.

(** X17. Whenever the loader returns, what it returns is the collection
    the storefront answered for the non-empty handle of the route, queried
    with a page size of 8, and the helper had returned normally. *)
Theorem loader_returns_only_the_answer
    (gpv : Request → Z → PaginationVariables)
    (helper : Request → string → CollectionData → Outcome unit)
    (args : LoaderArgs) (data : LoaderData) :
  loader gpv helper args = Return data →
  ∃ h, params_handle args = Some h ∧ h ≠ ""
       ∧ query (storefront args)
           {| var_handle := h; var_pagination := gpv (request args) 8 |}
         = Return (Some (collection data))
       ∧ helper (request args) h (collection data) = Return tt.
Proof.
  intros Hret.
  destruct (params_handle args) as [h|] eqn:Hh.
  - destruct (decide (h = "")) as [-> | Hne].
    + by rewrite (empty_handle_redirects_aux gpv helper args Hh) in Hret.
    + exists h. split; [done |]. split; [done |].
      rewrite (loader_query_cases _ _ _ h Hh Hne) in Hret.
      destruct (query _ _) as [[c|]|t]; try done.
      destruct (helper _ _ _) as [[]|t] eqn:Hhelp; [| done].
      injection Hret as <-. simpl. by rewrite Hhelp.
  - rewrite loader_is_critical in Hret. unfold loadCriticalData in Hret.
    by rewrite Hh in Hret.
Qed.

Lemma loader_returns_only_the_answer_witness :
  let args := args_for (Some "shirts") in
  loader first_page redirect_when_localized args
  = Return {| collection := shirts |}
  ∧ ∃ h, params_handle args = Some h ∧ h ≠ ""
         ∧ query (storefront args)
             {| var_handle := h; var_pagination := first_page (request args) 8 |}
           = Return (Some shirts)
         ∧ redirect_when_localized (request args) h shirts = Return tt.
Proof.
  split; [reflexivity |].
  apply (loader_returns_only_the_answer first_page redirect_when_localized
           (args_for (Some "shirts")) {| collection := shirts |}).
  reflexivity.
Defined.

(** X18. Whatever the loader throws is one of four things: the redirect to
    [/collections] (handle missing or empty), what the query threw, the
    404 naming the handle (the query answered without a collection), or
    what the helper threw on the collection found. *)
Theorem loader_throws_only
    (gpv : Request → Z → PaginationVariables)
    (helper : Request → string → CollectionData → Outcome unit)
    (args : LoaderArgs) (t : Thrown) :
  loader gpv helper args = Throw t →
  (falsy (params_handle args) = true
   ∧ t = ThrownResponse (redirect "/collections"))
  ∨ ∃ h, params_handle args = Some h ∧ h ≠ ""
         ∧ let answer :=
             query (storefront args)
               {| var_handle := h; var_pagination := gpv (request args) 8 |} in
           answer = Throw t
           ∨ (answer = Return None
              ∧ t = ThrownResponse
                      {| body := Some ("Collection " +:+ h +:+ " not found");
                         status := 404; location := None |})
           ∨ ∃ c, answer = Return (Some c)
                  ∧ helper (request args) h c = Throw t.
Proof.
  intros Hthrow.
  destruct (params_handle args) as [h|] eqn:Hh.
  - destruct (decide (h = "")) as [-> | Hne].
    + left. rewrite (empty_handle_redirects_aux gpv helper args Hh) in Hthrow.
      split; [done | congruence].
    + right. exists h. split; [done |]. split; [done |]. simpl.
      rewrite (loader_query_cases _ _ _ h Hh Hne) in Hthrow.
      destruct (query _ _) as [[c|]|t']; [| | left; congruence].
      * right; right. exists c. split; [done |].
        destruct (helper _ _ _); [done | congruence].
      * right; left. split; [done | congruence].
  - left. rewrite loader_is_critical in Hthrow.
    unfold loadCriticalData in Hthrow. rewrite Hh in Hthrow. simpl in Hthrow.
    split; [done | congruence].
Qed.

Lemma loader_throws_only_witness :
  let args := args_for (Some "hats") in
  let t := ThrownResponse {| body := Some "Collection hats not found";
                             status := 404; location := None |} in
  loader first_page redirect_when_localized args = Throw t
  ∧ ((falsy (params_handle args) = true
      ∧ t = ThrownResponse (redirect "/collections"))
     ∨ ∃ h, params_handle args = Some h ∧ h ≠ ""
            ∧ let answer :=
                query (storefront args)
                  {| var_handle := h;
                     var_pagination := first_page (request args) 8 |} in
              answer = Throw t
              ∨ (answer = Return None
                 ∧ t = ThrownResponse
                         {| body := Some ("Collection " +:+ h +:+ " not found");
                            status := 404; location := None |})
              ∨ ∃ c, answer = Return (Some c)
                     ∧ redirect_when_localized (request args) h c = Throw t).
Proof.
  split; [reflexivity |].
  apply (loader_throws_only first_page redirect_when_localized
           (args_for (Some "hats"))).
  reflexivity.
Defined.

End LoaderMore.
